(** * codegen-agent: the sandboxed execution and retry orchestration core

    A shallow embedding of [core/workflow.py] ([AgentWorkflow.run]),
    [core/execution/runner.py] ([_find_used_variables], [execute]),
    [core/execution/docker_runtime.py] ([DockerRuntime]) and
    [core/llm_service.py] ([prepare_data_description]).

    Python strings are Rocq [string]s, read as sequences of Latin-1 code
    points (one [ascii] per code point, U+0000..U+00FF).  Python exceptions
    are an explicit error result; mutable objects are threaded as state. *)

From Stdlib Require Import String Ascii List ZArith Bool Lia DecimalString.
Import ListNotations.
Open Scope string_scope.
Open Scope list_scope.

(* ------------------------------------------------------------------ *)
(** ** Values held in the caller's variable mapping *)

(** The attributes of a pandas object that the sources read; [*_repr]
    are the texts the f-strings of [prepare_data_description] render, and
    [repr_ok] is false when rendering one of them raises. *)
Record DataFrameInfo := {
  df_shape : string;
  df_columns : string;
  df_attrs : string;
  df_head3 : string;
  df_repr_ok : bool
}.

Record SeriesInfo := {
  se_length : string;
  se_name : string;
  se_head3 : string;
  se_repr_ok : bool
}.

(** A Python value of the [user_variables] dict: a DataFrame, a Series, or
    any other object ([picklable] says whether [pickle.dump] accepts it). *)
Inductive PyValue :=
| VDataFrame (d : DataFrameInfo)
| VSeries (s : SeriesInfo)
| VOther (picklable : bool).

(** A [Dict[str, Any]], in insertion order (keys are distinct in a dict). *)
Definition Namespace := list (string * PyValue).

(* ------------------------------------------------------------------ *)
(** ** [core/models.py] *)

(** Modelled from the spec: [ExecutionResult] of [core/models.py] (not among
    the sources): standard output, standard error, exit status, and
    [success] derived from the exit status alone. *)
Module ExecutionResult.
Record t := { stdout : string; stderr : string; returncode : Z }.
Definition success (r : t) : bool := (returncode r =? 0)%Z.
End ExecutionResult.

(** Modelled from the spec: [CodeGenerationResult] of [core/models.py]
    (not among the sources); the workflow reads its [code] only. *)
Module CodeGenerationResult.
Record t := { code : string }.
End CodeGenerationResult.

(** Modelled from the spec: [CodeAssessmentResult] of [core/models.py]
    (not among the sources): success flag, should-retry flag, analysis, an
    optional plan and an optional corrected code. *)
Module CodeAssessmentResult.
Record t := {
  success : bool;
  should_retry : bool;
  analysis : string;
  plan : option string;
  code : option string
}.
End CodeAssessmentResult.

(** Modelled from the spec: [ExecutionAssessmentHistoryItem] of
    [core/models.py] (not among the sources). *)
Module HistoryItem.
Record t := {
  plan : option string;
  code : string;
  execution_result : ExecutionResult.t;
  assessment : CodeAssessmentResult.t
}.
End HistoryItem.

(** Modelled from the spec: [CodeGenerationRequest] of [core/models.py]
    (not among the sources): request text and the caller's variables. *)
Module CodeGenerationRequest.
Record t := { request_text : string; user_variables : Namespace }.
End CodeGenerationRequest.

(** Python truthiness of an [Optional[str]]: [None] and [""] are false. *)
Definition truthy_str (o : option string) : option string :=
  match o with
  | Some s => if String.eqb s "" then None else Some s
  | None => None
  end.

(* ------------------------------------------------------------------ *)
(** ** [core/workflow.py]: [AgentWorkflow] *)

Module Workflow.

(** The attributes of an [AgentWorkflow] object. *)
Record AgentWorkflow := {
  request : CodeGenerationRequest.t;
  max_code_generation : Z;
  code_generation_count : Z;
  current_code : string;
  code_result : CodeGenerationResult.t;
  execution_result : ExecutionResult.t;
  assessment : CodeAssessmentResult.t;
  history : list HistoryItem.t
}.

(** The calls the loop makes to its collaborators, in order, with what
    they returned: generation, sandbox execution, assessment, and the UI's
    [save_to_notebook]. *)
Inductive Event :=
| EvGenerate (g : CodeGenerationResult.t)
| EvExecute (c : string) (r : ExecutionResult.t)
| EvAssess (a : CodeAssessmentResult.t)
| EvSave (c : string).

(** An exception raised by a collaborator and propagated by [run]. *)
Inductive Exn := GenerationFailed | ExecutionFailed | AssessmentFailed.

(** Outcome of a computation: a value, a raised exception, or running out
    of the fuel that bounds the [while True] loop. *)
Inductive Res (A : Type) := Ok (a : A) | Raise (e : Exn) | OutOfFuel.
Arguments Ok {A} a.
Arguments Raise {A} e.
Arguments OutOfFuel {A}.

Definition St := (AgentWorkflow * list Event)%type.
Definition M (A : Type) := St -> Res A * St.

Definition ret {A} (a : A) : M A := fun s => (Ok a, s).
Definition bind {A B} (m : M A) (k : A -> M B) : M B := fun s =>
  match m s with
  | (Ok a, s') => k a s'
  | (Raise e, s') => (Raise e, s')
  | (OutOfFuel, s') => (OutOfFuel, s')
  end.
Notation "x <- m ;; k" := (bind m (fun x => k))
  (at level 61, m at next level, right associativity).
Notation "m ;;; k" := (bind m (fun _ => k)) (at level 61, right associativity).

Definition get : M AgentWorkflow := fun s => (Ok (fst s), s).
Definition modify (f : AgentWorkflow -> AgentWorkflow) : M unit :=
  fun s => (Ok tt, (f (fst s), snd s)).
Definition emit (e : Event) : M unit := fun s => (Ok tt, (fst s, snd s ++ [e])).
Definition raise {A} (e : Exn) : M A := fun s => (Raise e, s).

(** Attribute assignments [self.x = v]. *)
Definition set_current_code (c : string) (w : AgentWorkflow) : AgentWorkflow :=
  {| request := request w; max_code_generation := max_code_generation w;
     code_generation_count := code_generation_count w; current_code := c;
     code_result := code_result w; execution_result := execution_result w;
     assessment := assessment w; history := history w |}.
Definition set_code_result (g : CodeGenerationResult.t) (w : AgentWorkflow) :=
  {| request := request w; max_code_generation := max_code_generation w;
     code_generation_count := code_generation_count w; current_code := current_code w;
     code_result := g; execution_result := execution_result w;
     assessment := assessment w; history := history w |}.
Definition set_execution_result (r : ExecutionResult.t) (w : AgentWorkflow) :=
  {| request := request w; max_code_generation := max_code_generation w;
     code_generation_count := code_generation_count w; current_code := current_code w;
     code_result := code_result w; execution_result := r;
     assessment := assessment w; history := history w |}.
Definition incr_count (w : AgentWorkflow) :=
  {| request := request w; max_code_generation := max_code_generation w;
     code_generation_count := code_generation_count w + 1; current_code := current_code w;
     code_result := code_result w; execution_result := execution_result w;
     assessment := assessment w; history := history w |}.
Definition set_assessment (a : CodeAssessmentResult.t) (w : AgentWorkflow) :=
  {| request := request w; max_code_generation := max_code_generation w;
     code_generation_count := code_generation_count w; current_code := current_code w;
     code_result := code_result w; execution_result := execution_result w;
     assessment := a; history := history w |}.
Definition append_history (it : HistoryItem.t) (w : AgentWorkflow) :=
  {| request := request w; max_code_generation := max_code_generation w;
     code_generation_count := code_generation_count w; current_code := current_code w;
     code_result := code_result w; execution_result := execution_result w;
     assessment := assessment w; history := history w ++ [it] |}.

(** The two [return] statements of [run]. *)
Inductive ExitPoint := ReturnAfterSuccess | ReturnAfterBudget.

Section Run.

(** The collaborators: [codegen.generate_code], [sandbox_execute] and
    [assessor.assess_code_output]; [None] is a raised exception.  The UI's
    display methods print only and are left out; [save_to_notebook] is
    recorded as an event. *)
Variable generate_code : CodeGenerationRequest.t -> option CodeGenerationResult.t.
Variable sandbox_execute : string -> Namespace -> option ExecutionResult.t.
Variable assess_code_output : CodeGenerationRequest.t -> ExecutionResult.t -> string ->
  list HistoryItem.t -> option CodeAssessmentResult.t.

(** The [empty_*] class methods of [core/models.py] used by [__init__]. *)
Variable empty_code_result : CodeGenerationResult.t.
Variable empty_execution_result : ExecutionResult.t.
Variable empty_assessment : CodeAssessmentResult.t.

Definition call_generate (q : CodeGenerationRequest.t) : M CodeGenerationResult.t :=
  match generate_code q with
  | Some g => emit (EvGenerate g) ;;; ret g
  | None => raise GenerationFailed
  end.

Definition call_execute (c : string) (vs : Namespace) : M ExecutionResult.t :=
  match sandbox_execute c vs with
  | Some r => emit (EvExecute c r) ;;; ret r
  | None => raise ExecutionFailed
  end.

Definition call_assess (q : CodeGenerationRequest.t) (r : ExecutionResult.t) (c : string)
    (h : list HistoryItem.t) : M CodeAssessmentResult.t :=
  match assess_code_output q r c h with
  | Some a => emit (EvAssess a) ;;; ret a
  | None => raise AssessmentFailed
  end.

(** [AgentWorkflow.__init__]. *)
Definition new_workflow (q : CodeGenerationRequest.t) (max_gen : Z) : AgentWorkflow :=
  {| request := q; max_code_generation := max_gen; code_generation_count := 0;
     current_code := ""; code_result := empty_code_result;
     execution_result := empty_execution_result; assessment := empty_assessment;
     history := [] |}.

(** The body of [while True] (lines 98-131); [fuel] bounds the number of
    iterations.  When the verdict is neither a success nor the last allowed
    attempt and does not both request a retry and carry code, control falls
    off the end of the body and the loop iterates again. *)
Fixpoint loop (fuel : nat) : M ExitPoint :=
  match fuel with
  | O => fun s => (OutOfFuel, s)
  | S fuel' =>
      w <- get ;;
      r <- call_execute (current_code w) (CodeGenerationRequest.user_variables (request w)) ;;
      modify (set_execution_result r) ;;;
      modify incr_count ;;;
      w <- get ;;
      let orig_plan := CodeAssessmentResult.plan (assessment w) in
      a <- call_assess (request w) (execution_result w) (current_code w) (history w) ;;
      modify (set_assessment a) ;;;
      modify (append_history
        {| HistoryItem.plan := orig_plan; HistoryItem.code := current_code w;
           HistoryItem.execution_result := execution_result w;
           HistoryItem.assessment := a |}) ;;;
      if CodeAssessmentResult.success a then
        emit (EvSave (current_code w)) ;;; ret ReturnAfterSuccess
      else if (max_code_generation w <=? code_generation_count w)%Z then
        ret ReturnAfterBudget
      else
        match CodeAssessmentResult.should_retry a, truthy_str (CodeAssessmentResult.code a) with
        | true, Some c => modify (set_current_code c) ;;; loop fuel'
        | _, _ => loop fuel'
        end
  end.

(** [AgentWorkflow.run]: one generation, then the loop; the fuel exceeds
    the number of iterations the budget allows. *)
Definition run : M ExitPoint :=
  w <- get ;;
  g <- call_generate (request w) ;;
  modify (set_code_result g) ;;;
  modify (set_current_code (CodeGenerationResult.code g)) ;;;
  w <- get ;;
  loop (S (Z.to_nat (max_code_generation w))).

(** [await AgentWorkflow(request, ..., max_code_generation=N).run()]. *)
Definition agent_run (q : CodeGenerationRequest.t) (max_gen : Z) : Res ExitPoint * St :=
  run (new_workflow q max_gen, []).

End Run.

(** The executions and the verdicts recorded in a trace. *)
Definition executions (tr : list Event) : list (string * ExecutionResult.t) :=
  flat_map (fun e => match e with EvExecute c r => [(c, r)] | _ => [] end) tr.
Definition verdicts (tr : list Event) : list CodeAssessmentResult.t :=
  flat_map (fun e => match e with EvAssess a => [a] | _ => [] end) tr.
Definition generations (tr : list Event) : list CodeGenerationResult.t :=
  flat_map (fun e => match e with EvGenerate g => [g] | _ => [] end) tr.

End Workflow.

(* ------------------------------------------------------------------ *)
(** ** [core/execution/runner.py]: [_find_used_variables] *)

Module Scan.

(** Character classes of the pattern of [_find_used_variables] (a word
    boundary, one of [a-zA-Z_], any number of [a-zA-Z0-9_], a word
    boundary, the whole match being the group), on code points. *)
Definition in_range (lo hi : nat) (c : ascii) : bool :=
  Nat.leb lo (nat_of_ascii c) && Nat.leb (nat_of_ascii c) hi.

(** [[a-zA-Z_]] *)
Definition id_start (c : ascii) : bool :=
  in_range 65 90 c || in_range 97 122 c || in_range 95 95 c.

(** [[a-zA-Z0-9_]] *)
Definition id_continue (c : ascii) : bool := id_start c || in_range 48 57 c.

(** The word characters of [\b] for a [str] pattern: ['_'] and the
    characters for which [str.isalnum()] holds; on Latin-1 these are the
    ASCII letters and digits, U+00AA, U+00B2, U+00B3, U+00B5, U+00B9,
    U+00BA, U+00BC..U+00BE and U+00C0..U+00FF other than U+00D7 and
    U+00F7. *)
Definition is_word (c : ascii) : bool :=
  id_continue c || in_range 170 170 c || in_range 178 179 c || in_range 181 181 c ||
  in_range 185 186 c || in_range 188 190 c || in_range 192 214 c ||
  in_range 216 246 c || in_range 248 255 c.

Definition word_at (o : option ascii) : bool :=
  match o with Some c => is_word c | None => false end.

(** [\b] between the character before a position and the one after it
    ([None] at either end of the text). *)
Definition boundary (before after : option ascii) : bool :=
  xorb (word_at before) (word_at after).

(** [[a-zA-Z0-9_]*\b] after the character [last]: the star is greedy and
    backtracks one character at a time until [\b] holds. *)
Fixpoint star_then_b (last : ascii) (s : list ascii) : option (list ascii * list ascii) :=
  match s with
  | [] => if boundary (Some last) None then Some ([], []) else None
  | c :: s' =>
      if id_continue c then
        match star_then_b c s' with
        | Some (m, r) => Some (c :: m, r)
        | None => if boundary (Some last) (Some c) then Some ([], s) else None
        end
      else if boundary (Some last) (Some c) then Some ([], s) else None
  end.

(** The pattern tried at one position, [prev] being the character before it. *)
Definition match_at (prev : option ascii) (s : list ascii) : option (list ascii * list ascii) :=
  match s with
  | [] => None
  | c :: s' =>
      if boundary prev (Some c) && id_start c then
        match star_then_b c s' with
        | Some (m, r) => Some (c :: m, r)
        | None => None
        end
      else None
  end.

(** The character before the position reached after reading [pre]. *)
Definition lastc (prev : option ascii) (pre : list ascii) : option ascii :=
  fold_left (fun _ c => Some c) pre prev.

(** [re.findall]: scan left to right; after a match resume at its end,
    otherwise one character further. *)
Fixpoint findall_go (fuel : nat) (prev : option ascii) (s : list ascii) : list (list ascii) :=
  match fuel with
  | O => []
  | S fuel' =>
      match s with
      | [] => []
      | c :: s' =>
          match match_at prev s with
          | Some (m, r) => m :: findall_go fuel' (lastc prev m) r
          | None => findall_go fuel' (Some c) s'
          end
      end
  end.

Definition findall (code : string) : list string :=
  let l := list_ascii_of_string code in
  map string_of_list_ascii (findall_go (S (List.length l)) None l).

(** [_find_used_variables(code, namespace)]. *)
Definition find_used_variables {V : Type} (code : string) (namespace : list (string * V))
    : list (string * V) :=
  let used := findall code in
  filter (fun kv => existsb (String.eqb (fst kv)) used) namespace.

(** [t] occurs in [s] as a maximal run of word characters made of ASCII
    letters, digits and underscores and starting with a letter or an
    underscore ([prev] is the character before [s]). *)
Definition ascii_identifier (t : list ascii) : bool :=
  match t with
  | c :: t' => id_start c && forallb id_continue t'
  | [] => false
  end.

Definition token_in (prev : option ascii) (s t : list ascii) : Prop :=
  exists pre post, s = pre ++ t ++ post /\ ascii_identifier t = true /\
    word_at (lastc prev pre) = false /\ word_at (hd_error post) = false.

Definition occurs_as_token (k code : string) : Prop :=
  token_in None (list_ascii_of_string code) (list_ascii_of_string k).

(** [cafe] with an acute accent on its [e], a Python identifier with a non-ASCII letter (U+00E9). *)
Definition cafe : string := "caf" ++ String (ascii_of_nat 233) "".

End Scan.

(* ------------------------------------------------------------------ *)
(** ** [core/execution/docker_runtime.py] and [runner.execute] *)

Module Sandbox.

(** Who created a filesystem entry: the host process, or the container
    (as its root user, through the read-write mount). *)
Inductive Owner := Host | Container.

Inductive Entry := EDir (o : Owner) | EFile (o : Owner) (contents : string).

(** An absolute host path, as its segments. *)
Definition path := list string.

Definition path_eqb (p q : path) : bool :=
  if list_eq_dec string_dec p q then true else false.

Fixpoint is_prefix (p q : path) : bool :=
  match p, q with
  | [], _ => true
  | x :: p', y :: q' => String.eqb x y && is_prefix p' q'
  | _ :: _, [] => false
  end.

(** [str(path)]. *)
Definition render (p : path) : string :=
  match p with
  | [] => "/"
  | _ => fold_right (fun seg acc => "/" ++ seg ++ acc)%string "" p
  end.

(** [subprocess.CompletedProcess] with [text=True]. *)
Record CompletedProcess := { prc : Z; pstdout : string; pstderr : string }.

(** The host: its filesystem (newest entry first), the images of the
    Docker daemon, the process environment, the builds the daemon ran
    (command and the Dockerfile text it read), every Docker CLI call with
    its result, the state of [tempfile]'s name source, whether the [docker]
    executable can be launched, whether the host process runs as root, and
    the text of the installed [prelude.py]. *)
Record World := {
  fs : list (path * Entry);
  images : list string;
  env : list (string * string);
  builds : list (list string * option string);
  cli_log : list (list string * CompletedProcess);
  rand : nat;
  cli_available : bool;
  host_is_root : bool;
  package_prelude : option string
}.

Definition with_fs (f : list (path * Entry)) (w : World) : World :=
  {| fs := f; images := images w; env := env w; builds := builds w; cli_log := cli_log w;
     rand := rand w; cli_available := cli_available w; host_is_root := host_is_root w;
     package_prelude := package_prelude w |}.
Definition with_images (i : list string) (w : World) : World :=
  {| fs := fs w; images := i; env := env w; builds := builds w; cli_log := cli_log w;
     rand := rand w; cli_available := cli_available w; host_is_root := host_is_root w;
     package_prelude := package_prelude w |}.
Definition with_env (e : list (string * string)) (w : World) : World :=
  {| fs := fs w; images := images w; env := e; builds := builds w; cli_log := cli_log w;
     rand := rand w; cli_available := cli_available w; host_is_root := host_is_root w;
     package_prelude := package_prelude w |}.
Definition with_builds (b : list (list string * option string)) (w : World) : World :=
  {| fs := fs w; images := images w; env := env w; builds := b; cli_log := cli_log w;
     rand := rand w; cli_available := cli_available w; host_is_root := host_is_root w;
     package_prelude := package_prelude w |}.
Definition with_log (l : list (list string * CompletedProcess)) (w : World) : World :=
  {| fs := fs w; images := images w; env := env w; builds := builds w; cli_log := l;
     rand := rand w; cli_available := cli_available w; host_is_root := host_is_root w;
     package_prelude := package_prelude w |}.
Definition with_rand (n : nat) (w : World) : World :=
  {| fs := fs w; images := images w; env := env w; builds := builds w; cli_log := cli_log w;
     rand := n; cli_available := cli_available w; host_is_root := host_is_root w;
     package_prelude := package_prelude w |}.

(** Python exceptions of this layer: [OSError] (the [docker] executable or
    [prelude.py] missing, no free temporary name), a pickling error, and the
    [RuntimeError] of a failed build, whose message lists the command, the
    exit code and both outputs. *)
Inductive Exn :=
| OSError (what : string)
| PicklingError
| BuildFailure (cmd : list string) (rc : Z) (out err : string).

Inductive Res (A : Type) := Ok (a : A) | Raise (e : Exn).
Arguments Ok {A} a.
Arguments Raise {A} e.

Definition RM (A : Type) := World -> Res A * World.

Definition ret {A} (a : A) : RM A := fun w => (Ok a, w).
Definition bind {A B} (m : RM A) (k : A -> RM B) : RM B := fun w =>
  match m w with
  | (Ok a, w') => k a w'
  | (Raise e, w') => (Raise e, w')
  end.
Definition raise {A} (e : Exn) : RM A := fun w => (Raise e, w).
Notation "x <- m ;; k" := (bind m (fun x => k))
  (at level 61, m at next level, right associativity).
Notation "m ;;; k" := (bind m (fun _ => k)) (at level 61, right associativity).

(** [try: m finally: cleanup] for a cleanup that never raises. *)
Definition try_finally {A} (m : RM A) (cleanup : World -> World) : RM A := fun w =>
  let '(r, w1) := m w in (r, cleanup w1).

Fixpoint for_each {A} (l : list A) (f : A -> RM unit) : RM unit :=
  match l with
  | [] => ret tt
  | x :: l' => f x ;;; for_each l' f
  end.

Definition lookup (p : path) (f : list (path * Entry)) : option Entry :=
  match find (fun pe => path_eqb p (fst pe)) f with
  | Some (_, e) => Some e
  | None => None
  end.

(** The text of the file a rendered path names, if any. *)
Definition read_file (s : string) (f : list (path * Entry)) : option string :=
  match find (fun pe => String.eqb (render (fst pe)) s) f with
  | Some (_, EFile _ c) => Some c
  | _ => None
  end.

Definition env_get (k default : string) (w : World) : string :=
  match find (fun kv => String.eqb (fst kv) k) (env w) with
  | Some (_, v) => v
  | None => default
  end.

Definition digits (n : nat) : string :=
  DecimalString.NilZero.string_of_uint (Nat.to_uint n).

(** [tempfile.mkdtemp(prefix=...)] under [/tmp]: candidate names come from
    the name source [n], a name already in use is skipped, and after
    [tries] candidates [FileExistsError] is raised. *)
Fixpoint mkdtemp_go (tries : nat) (prefix : string) (n : nat) : RM path := fun w =>
  match tries with
  | O => (Raise (OSError "FileExistsError"), with_rand n w)
  | S t =>
      let cand := ["tmp"; (prefix ++ digits n)%string] in
      if existsb (fun pe => is_prefix cand (fst pe)) (fs w) then mkdtemp_go t prefix (S n) w
      else (Ok cand, with_fs ((cand, EDir Host) :: fs w) (with_rand (S n) w))
  end.

(** The number of candidates [tempfile] tries; its value plays no part in
    the properties below. *)
Definition TMP_MAX : nat := 100.

Definition mkdtemp (prefix : string) : RM path := fun w => mkdtemp_go TMP_MAX prefix (rand w) w.

(** [Path.mkdir(parents=True, exist_ok=True)] below an existing directory. *)
Definition mkdir (p : path) : RM unit := fun w =>
  if existsb (fun pe => path_eqb p (fst pe)) (fs w) then (Ok tt, w)
  else (Ok tt, with_fs ((p, EDir Host) :: fs w) w).

Definition write_file (p : path) (contents : string) : RM unit := fun w =>
  (Ok tt, with_fs ((p, EFile Host contents) :: fs w) w).

(** [shutil.rmtree] of a tree whose entries the host can all remove. *)
Definition remove_tree (root : path) (w : World) : World :=
  with_fs (filter (fun pe => negb (is_prefix root (fst pe))) (fs w)) w.

(** [shutil.rmtree(root, ignore_errors=True)]: an entry strictly below
    [root] whose directory was created by the container cannot be unlinked
    by a non-root host process, and a directory that is not empty cannot be
    removed; these failures are ignored.  Everything else below [root] goes. *)
Definition parent_locked (f : list (path * Entry)) (d : path) : bool :=
  match lookup (removelast d) f with
  | Some (EDir Container) => true
  | _ => false
  end.

Definition survives (w : World) (root e : path) : bool :=
  negb (host_is_root w) &&
  existsb (fun de => let d := fst de in
             negb (path_eqb root d) && is_prefix root d && is_prefix e d &&
             parent_locked (fs w) d) (fs w).

Definition rmtree_ignore_errors (root : path) (w : World) : World :=
  with_fs (filter (fun pe => negb (is_prefix root (fst pe)) || survives w root (fst pe)) (fs w)) w.

(** [tempfile.TemporaryDirectory(prefix=...)] used as a context manager. *)
Definition with_tempdir {A} (prefix : string) (body : path -> RM A) : RM A :=
  ctx <- mkdtemp prefix ;;
  try_finally (body ctx) (remove_tree ctx).

(** [_DOCKERFILE_TEXT]; the backslash-newline pairs of the Python literal
    are line continuations, so the [RUN] instruction is a single line. *)
Definition _DOCKERFILE_TEXT : string :=
"FROM python:3.13-slim

RUN pip install --no-cache-dir     pandas     numpy     matplotlib     seaborn

ENV MPLCONFIGDIR=/tmp
WORKDIR /work
# Host will invoke: python -u /inputs/prelude.py
".

Section Runtime.

(** What the Docker daemon does that the sources do not decide: the exit
    code and outputs of a build, and of a container run together with the
    entries the run leaves on the host through its output mount. *)
Variable build_outcome : World -> list string -> Z * string * string.
Variable run_outcome : World -> list string -> Z * string * string * list (path * Entry).

(** [DockerRuntime._run]: [subprocess.run(cmd, capture_output=True,
    text=True)] on the Docker CLI.  [image inspect] succeeds exactly when the
    image exists; a successful [build] adds the image; a [run] leaves its
    entries on the host. *)
Definition docker_cli (cmd : list string) : RM CompletedProcess := fun w =>
  if negb (cli_available w) then (Raise (OSError "docker"), w) else
  let '(p, w') :=
    match cmd with
    | ["docker"; "image"; "inspect"; img] =>
        ({| prc := if existsb (String.eqb img) (images w) then 0 else 1;
            pstdout := ""; pstderr := "" |}, w)
    | "docker" :: "build" :: "-t" :: img :: rest =>
        let '(rc, out, err) := build_outcome w cmd in
        let df := match rest with
                  | "-f" :: f :: _ => f
                  | ctx :: _ => (ctx ++ "/Dockerfile")%string
                  | [] => "Dockerfile"
                  end in
        let w1 := with_builds (builds w ++ [(cmd, read_file df (fs w))]) w in
        ({| prc := rc; pstdout := out; pstderr := err |},
         if (rc =? 0)%Z then with_images (img :: images w1) w1 else w1)
    | "docker" :: "run" :: _ =>
        let '(rc, out, err, writes) := run_outcome w cmd in
        ({| prc := rc; pstdout := out; pstderr := err |}, with_fs (rev writes ++ fs w) w)
    | _ => ({| prc := 1; pstdout := ""; pstderr := "" |}, w)
    end in
  (Ok p, with_log (cli_log w' ++ [(cmd, p)]) w').

(** [DockerRuntime.__init__]: [image or os.environ.get(...)]. *)
Definition runtime_image (image : option string) (w : World) : string :=
  match image with
  | Some s => if String.eqb s "" then env_get "LLM_ANALYZE_RUNNER_IMAGE" "llm-analyze-runner:py313" w
              else s
  | None => env_get "LLM_ANALYZE_RUNNER_IMAGE" "llm-analyze-runner:py313" w
  end.

Definition build_cmd_explicit (img : string) (df : path) : list string :=
  ["docker"; "build"; "-t"; img; "-f"; render df; render (removelast df)].

Definition build_cmd_temp (img : string) (ctx : path) : list string :=
  ["docker"; "build"; "-t"; img; render ctx].

(** [DockerRuntime.ensure_image(dockerfile)]. *)
Definition ensure_image (img : string) (dockerfile : option path) : RM unit :=
  insp <- docker_cli ["docker"; "image"; "inspect"; img] ;;
  if (prc insp =? 0)%Z then ret tt else
  match dockerfile with
  | Some df =>
      let cmd := build_cmd_explicit img df in
      proc <- docker_cli cmd ;;
      if (prc proc =? 0)%Z then ret tt
      else raise (BuildFailure cmd (prc proc) (pstdout proc) (pstderr proc))
  | None =>
      with_tempdir "llm_analyze_build_" (fun ctx =>
        write_file (ctx ++ ["Dockerfile"]) _DOCKERFILE_TEXT ;;;
        let cmd := build_cmd_temp img ctx in
        proc <- docker_cli cmd ;;
        if (prc proc =? 0)%Z then ret tt
        else raise (BuildFailure cmd (prc proc) (pstdout proc) (pstderr proc)))
  end.

Definition run_cmd (img inputs_dir outputs_dir : string) : list string :=
  ["docker"; "run"; "--rm"; "-v"; (inputs_dir ++ ":/inputs:ro")%string;
   "-v"; (outputs_dir ++ ":/outputs:rw")%string; img; "python"; "-u"; "/inputs/prelude.py"].

(** [DockerRuntime.run]; [Path.resolve()] of the absolute, link-free
    workspace paths is the identity. *)
Definition run_container (img inputs_dir outputs_dir : string) : RM CompletedProcess :=
  proc <- docker_cli (run_cmd img inputs_dir outputs_dir) ;;
  if negb (prc proc =? 0)%Z && String.eqb (pstderr proc) "" then
    ret {| prc := prc proc; pstdout := pstdout proc; pstderr := pstdout proc |}
  else ret proc.

(** [_write_prelude_to]: copy the installed [prelude.py]. *)
Definition write_prelude_to (p : path) : RM unit := fun w =>
  match package_prelude w with
  | Some txt => write_file p txt w
  | None => (Raise (OSError "prelude.py"), w)
  end.

(** [_save_var]: DataFrames through [to_pickle], everything else through
    [pickle.dump] into a file opened before dumping. *)
Definition save_var (p : path) (v : PyValue) : RM unit :=
  match v with
  | VOther false => write_file p "" ;;; raise PicklingError
  | _ => write_file p "<pickle>"
  end.

(** [runner.execute(code, variables, image=image)]. *)
Definition execute (code : string) (variables : Namespace) (image : string)
    : RM ExecutionResult.t :=
  tmp_root <- mkdtemp "codegen_agent_" ;;
  let inputs := tmp_root ++ ["inputs"] in
  let outputs := tmp_root ++ ["outputs"] in
  let vars_dir := inputs ++ ["vars"] in
  try_finally (
    mkdir inputs ;;; mkdir outputs ;;; mkdir vars_dir ;;;
    write_file (inputs ++ ["code.py"]) code ;;;
    write_prelude_to (inputs ++ ["prelude.py"]) ;;;
    let filtered := Scan.find_used_variables code variables in
    for_each filtered (fun nv => save_var (vars_dir ++ [(fst nv ++ ".pkl")%string]) (snd nv)) ;;;
    fun w =>
      (let img := runtime_image (Some image) w in
       ensure_image img None ;;;
       proc <- run_container img (render inputs) (render outputs) ;;
       ret {| ExecutionResult.stdout := pstdout proc; ExecutionResult.stderr := pstderr proc;
              ExecutionResult.returncode := prc proc |}) w)
    (rmtree_ignore_errors tmp_root).

End Runtime.

End Sandbox.

(* ------------------------------------------------------------------ *)
(** ** [core/llm_service.py] *)

Module LLMService.

Definition nl : string := String (ascii_of_nat 10) EmptyString.

(** One iteration of the loop of [prepare_data_description]: [None] when
    building the f-string raises (re-raised as [RuntimeError]), [Some None]
    when the value is neither a DataFrame nor a Series, and otherwise the
    description appended. *)
Definition describe (var_name : string) (v : PyValue) : option (option string) :=
  match v with
  | VDataFrame d =>
      if df_repr_ok d then
        Some (Some ("Variable: " ++ var_name ++ nl ++
                    "Type: DataFrame" ++ nl ++
                    "Shape: " ++ df_shape d ++ nl ++
                    "Columns: " ++ df_columns d ++ nl ++
                    "Dataframe Description: " ++ df_attrs d ++ nl ++
                    "Sample data (first 3 rows):" ++ nl ++ df_head3 d ++ nl)%string)
      else None
  | VSeries s =>
      if se_repr_ok s then
        Some (Some ("Variable: " ++ var_name ++ nl ++
                    "Type: Series" ++ nl ++
                    "Length: " ++ se_length s ++ nl ++
                    "Name: " ++ se_name s ++ nl ++
                    "Sample data (first 3 values):" ++ nl ++ se_head3 s ++ nl)%string)
      else None
  | VOther _ => Some None
  end.

Fixpoint descriptions (user_variables : Namespace) : option (list string) :=
  match user_variables with
  | [] => Some []
  | (n, v) :: rest =>
      match describe n v, descriptions rest with
      | None, _ => None
      | Some _, None => None
      | Some None, Some ds => Some ds
      | Some (Some d), Some ds => Some (d :: ds)
      end
  end.

(** [LLMServiceBase.prepare_data_description]; [None] is the
    [RuntimeError] it raises. *)
Definition prepare_data_description (user_variables : Namespace) : option string :=
  match descriptions user_variables with
  | None => None
  | Some [] => Some "No data variables available."
  | Some ds => Some (String.concat (nl ++ nl) ds)
  end.

Inductive Template :=
| CODE_GENERATION_PROMPT_TEMPLATE
| OUTPUT_ASSESSMENT_PROMPT_TEMPLATE
| CODE_REGENERATION_PROMPT_TEMPLATE.

(** A call [template.format(...)]: the template and its keyword arguments
    ([None] for an argument the call does not pass). *)
Record Formatted := {
  template : Template;
  today : string;
  request_text : string;
  code : option string;
  stdout : option string;
  stderr : option string;
  data_description : string
}.

(** The user prompt of [CodeGenerationService.generate_code], up to the
    client call. *)
Definition generate_code_prompt (today : string) (request : CodeGenerationRequest.t)
    : option Formatted :=
  match prepare_data_description (CodeGenerationRequest.user_variables request) with
  | None => None
  | Some dd =>
      Some {| template := CODE_GENERATION_PROMPT_TEMPLATE; today := today;
              request_text := CodeGenerationRequest.request_text request;
              code := None; stdout := None; stderr := None; data_description := dd |}
  end.

(** The user prompt of [AssessmentService.assess_code_output], up to the
    client call. *)
Definition assess_code_output_prompt (today : string) (request : CodeGenerationRequest.t)
    (execution_result : ExecutionResult.t) (code : string) : option Formatted :=
  match prepare_data_description (CodeGenerationRequest.user_variables request) with
  | None => None
  | Some dd =>
      Some {| template := if ExecutionResult.success execution_result
                          then OUTPUT_ASSESSMENT_PROMPT_TEMPLATE
                          else CODE_REGENERATION_PROMPT_TEMPLATE;
              today := today;
              request_text := CodeGenerationRequest.request_text request;
              code := Some code;
              stdout := Some (ExecutionResult.stdout execution_result);
              stderr := Some (ExecutionResult.stderr execution_result);
              data_description := dd |}
  end.

(** [isinstance(v, (pd.DataFrame, pd.Series))]. *)
Definition is_frame (v : PyValue) : bool :=
  match v with
  | VDataFrame _ | VSeries _ => true
  | VOther _ => false
  end.

End LLMService.

(* ------------------------------------------------------------------ *)
(** Concrete hosts for the sandbox: a non-root Linux host with a rootful
    Docker daemon, no runner image yet, [prelude.py] installed. *)

Module SandboxScenarios.
Import Sandbox.

Definition host0 : World :=
  {| fs := [(["tmp"], EDir Host);
            (["opt"; "runner"; "Dockerfile"], EFile Host "FROM python:3.13-slim");
            (["opt"; "runner"], EDir Host); (["opt"], EDir Host)];
     images := []; env := [];
     builds := []; cli_log := []; rand := 0;
     cli_available := true; host_is_root := false;
     package_prelude := Some "import runpy" |}.

(** The same host with a Dockerfile path in its environment. *)
Definition host_env : World :=
  with_env [("LLM_ANALYZE_RUNNER_DOCKERFILE", "/opt/runner/Dockerfile")] host0.

(** Builds that succeed. *)
Definition build_ok (w : World) (cmd : list string) : Z * string * string :=
  (0%Z, "Successfully built", "").

(** A container run that fails with its message on stdout only. *)
Definition run_fails_stdout (w : World) (cmd : list string)
    : Z * string * string * list (path * Entry) :=
  (1%Z, "Traceback: NameError", "", []).

(** A container run, as root in the container, that saves a figure into a
    new subdirectory of [/outputs], on the host under the output mount. *)
Definition run_saves_plot (w : World) (cmd : list string)
    : Z * string * string * list (path * Entry) :=
  match cmd with
  | [_; _; _; _; _; _; outm; _; _; _; _] =>
      let outputs := ["tmp"; "codegen_agent_0"; "outputs"] in
      if String.eqb outm (render outputs ++ ":/outputs:rw") then
        (0%Z, "saved", "",
         [(outputs ++ ["figs"], EDir Container);
          (outputs ++ ["figs"; "plot.png"], EFile Container "PNG")])
      else (0%Z, "saved", "", [])
  | _ => (1%Z, "", "", [])
  end.

(** The entry [last] falls back to on an empty Docker call log. *)
Definition no_process : list string * CompletedProcess :=
  ([], {| prc := 0; pstdout := ""; pstderr := "" |}).

(** The [ExecutionResult] of a run whose container exits 1 with its
    traceback on standard output only. *)
Definition er_fail : ExecutionResult.t :=
  {| ExecutionResult.stdout := "Traceback: NameError";
     ExecutionResult.stderr := "Traceback: NameError";
     ExecutionResult.returncode := 1 |}.

End SandboxScenarios.

(** Concrete collaborators, as the deterministic fakes of
    [samples/workflow_retry.py] build them. *)
Module WorkflowScenarios.
Import Workflow.

Definition req : CodeGenerationRequest.t :=
  {| CodeGenerationRequest.request_text := "print exactly HELLO";
     CodeGenerationRequest.user_variables := [] |}.

Definition gen_hello (_ : CodeGenerationRequest.t) : option CodeGenerationResult.t :=
  Some {| CodeGenerationResult.code := "print('hello')" |}.

(** The sandbox runs the code and prints [hello] with exit status 0. *)
Definition exec_hello (_ : string) (_ : Namespace) : option ExecutionResult.t :=
  Some {| ExecutionResult.stdout := "hello"; ExecutionResult.stderr := "";
          ExecutionResult.returncode := 0 |}.

Definition verdict (ok retry : bool) (c : option string) : CodeAssessmentResult.t :=
  {| CodeAssessmentResult.success := ok; CodeAssessmentResult.should_retry := retry;
     CodeAssessmentResult.analysis := "Expected 'HELLO' but saw lowercase.";
     CodeAssessmentResult.plan := None; CodeAssessmentResult.code := c |}.

(** An assessor that always returns the same verdict. *)
Definition assess_const (a : CodeAssessmentResult.t) (_ : CodeGenerationRequest.t)
    (_ : ExecutionResult.t) (_ : string) (_ : list HistoryItem.t) :=
  Some a.

Definition empty_gen : CodeGenerationResult.t := {| CodeGenerationResult.code := "" |}.
Definition empty_exec : ExecutionResult.t :=
  {| ExecutionResult.stdout := ""; ExecutionResult.stderr := ""; ExecutionResult.returncode := 0 |}.
Definition empty_verdict : CodeAssessmentResult.t :=
  {| CodeAssessmentResult.success := false; CodeAssessmentResult.should_retry := false;
     CodeAssessmentResult.analysis := ""; CodeAssessmentResult.plan := None;
     CodeAssessmentResult.code := None |}.

(** [AgentWorkflow(req, max_code_generation=n).run()] with these fakes. *)
Definition run_with (a : CodeAssessmentResult.t) (n : Z) :=
  agent_run gen_hello exec_hello (assess_const a) empty_gen empty_exec empty_verdict req n.

(** The codes handed to the sandbox, in order. *)
Definition executed_codes (o : Res ExitPoint * St) : list string :=
  map fst (executions (snd (snd o))).

End WorkflowScenarios.

(* ------------------------------------------------------------------ *)
(** ** [core/llm_service.py]: the messages sent to the client *)

Module LLMConversation.
Import LLMService.






Section Messages.

(** [item.generate_agent_message().content] of [core/models.py] (not among
    the sources); [None] when the call raises. *)
Variable generate_agent_message : HistoryItem.t -> option string.



End Messages.

End LLMConversation.

(* ------------------------------------------------------------------ *)
(** ** [core/workflow.py]: [ConsoleUI] *)

Module ConsoleUI.
Import LLMService.

(** [print(s)]: the text written to standard output. *)
Definition print (s : string) : string := (s ++ nl)%string.

(** [str()] of an [int]. *)
Definition str_int (n : Z) : string := NilZero.string_of_int (Z.to_int n).

(** The title of [show_generated_code] and [show_results]:
    [plain if not trial_number else ...]. *)
Definition title (plain attempt : string) (trial_number : option Z) : string :=
  match trial_number with
  | Some n => if (n =? 0)%Z then plain else (attempt ++ str_int n ++ "):**")%string
  | None => plain
  end.

Definition show_generated_code (code : string) (explanation : option string)
    (trial_number : option Z) : string :=
  let content :=
    match truthy_str explanation with
    | Some e => [("**Code Explanation:**" ++ nl ++ nl ++ e)%string]
    | None => []
    end ++
    [title "**Generated Code:**" "**Generated Code (Attempt " trial_number;
     ("```python" ++ nl ++ code ++ nl ++ "```")%string] in
  (print (String.concat nl content) ++ print "")%string.

(** Lines 40-42 of [show_results]: the standard output as displayed. *)
Definition display_stdout (stdout : string) : string :=
  if Nat.ltb 1000 (String.length stdout)
  then (substring 0 1000 stdout ++ nl ++ "... (output truncated)")%string
  else stdout.

Definition show_results (execution_result : ExecutionResult.t) (trial_number : option Z)
    : string :=
  let content :=
    [title "**Execution Results:**" "**Execution Results (Attempt " trial_number;
     ("```" ++ nl ++ display_stdout (ExecutionResult.stdout execution_result) ++ nl ++
      "```")%string] ++
    (if String.eqb (ExecutionResult.stderr execution_result) "" then []
     else [("```stderr" ++ nl ++ ExecutionResult.stderr execution_result ++ nl ++ "```")%string]) in
  (print (String.concat nl content) ++ print "")%string.



End ConsoleUI.

(* ------------------------------------------------------------------ *)
(** ** [core/llm_client.py]: [FullLogChatClientCache] *)

Module LLMClient.

Definition MAX_TOTAL_CALLS : Z := 1000.
Definition MAX_TOTAL_TOKENS : Z := 1000000.

(** A value of the disk cache: the usage counters hold integers,
    [llm_usage_from] a timestamp text. *)
Inductive CVal := CInt (n : Z) | CStr (s : string).

(** The disk cache [cache_store.cache] under the keys this class uses (the
    responses [ChatCompletionCache] stores live under hash keys of their
    own and are left out). *)
Definition Cache := list (string * CVal).

(** [cache.get(key, default)]. *)
Definition cache_get (key : string) (default : CVal) (c : Cache) : CVal :=
  match find (fun kv => String.eqb (fst kv) key) c with
  | Some (_, v) => v
  | None => default
  end.

(** [cache.set(key, value)]. *)
Definition cache_set (key : string) (value : CVal) (c : Cache) : Cache :=
  (key, value) :: filter (fun kv => negb (String.eqb (fst kv) key)) c.

(** Exceptions out of [create]: the usage limit, a [TypeError] when a
    counter holds a text, the [IndexError] of [req[-1]] on an empty message
    list, and an error of the wrapped client, re-raised. *)
Inductive ClientExn :=
| UsageLimitExceededError (msg : string)
| TypeError
| IndexError
| ModelError.

Definition _calls_key : string := "llm_total_calls".
Definition _tokens_key : string := "llm_total_tokens".

Definition _get_usage (key : string) (c : Cache) : CVal := cache_get key (CInt 0) c.

Definition _increment_usage (key : string) (amount : Z) (c : Cache) : (ClientExn + Z) * Cache :=
  match _get_usage key c with
  | CInt current =>
      let new_total := (current + amount)%Z in
      (inr new_total, cache_set key (CInt new_total) c)
  | CStr _ => (inl TypeError, c)
  end.

Definition _estimate_tokens (content : string) : Z :=
  if String.eqb content "" then 0%Z else (Z.of_nat (String.length content) / 4)%Z.

(** [usage >= limit]. *)
Definition at_limit (v : CVal) (limit : Z) : ClientExn + bool :=
  match v with
  | CInt n => inr (limit <=? n)%Z
  | CStr _ => inl TypeError
  end.

(** The [CreateResult] of the wrapped client: whether it came from the
    response cache, its token usage and its text. *)
Record CreateResult := {
  cached : bool;
  prompt_tokens : Z;
  completion_tokens : Z;
  result_content : string
}.

(** [FullLogChatClientCache.create(messages)]; [messages] are the rendered
    [source: content] lines, [inner] the outcome of [super().create]
    ([None] when it raises).  Logging is left out. *)
Definition create (messages : list string) (inner : option CreateResult) (c : Cache)
    : (ClientExn + CreateResult) * Cache :=
  match at_limit (_get_usage _calls_key c) MAX_TOTAL_CALLS with
  | inl e => (inl e, c)
  | inr true => (inl (UsageLimitExceededError "Max calls exceeded: 1000"), c)
  | inr false =>
  match at_limit (_get_usage _tokens_key c) MAX_TOTAL_TOKENS with
  | inl e => (inl e, c)
  | inr true => (inl (UsageLimitExceededError "Max tokens exceeded: 1000000"), c)
  | inr false =>
  match inner with
  | None => (inl ModelError, c)
  | Some result =>
      let '(r1, c1) :=
        if cached result then (inr tt, c) else
        let total_token := (prompt_tokens result + completion_tokens result * 4)%Z in
        match _increment_usage _calls_key 1 c with
        | (inl e, c') => (inl e, c')
        | (inr _, c') =>
            match _increment_usage _tokens_key total_token c' with
            | (inl e, c'') => (inl e, c'')
            | (inr _, c'') => (inr tt, c'')
            end
        end in
      match r1 with
      | inl e => (inl e, c1)
      | inr _ =>
          match messages with
          | [] => (inl IndexError, c1)
          | _ => (inr result, c1)
          end
      end
  end
  end
  end.

(** [reset_usage()], [now] being the formatted current time. *)
Definition reset_usage (now : string) (c : Cache) : Cache :=
  cache_set "llm_total_tokens" (CInt 0)
    (cache_set "llm_total_calls" (CInt 0) (cache_set "llm_usage_from" (CStr now) c)).

(** A sequence of awaited [create] calls on one client. *)
Fixpoint create_all (calls : list (list string * option CreateResult)) (c : Cache)
    : list (ClientExn + CreateResult) * Cache :=
  match calls with
  | [] => ([], c)
  | (m, o) :: rest =>
      let '(r, c1) := create m o c in
      let '(rs, c2) := create_all rest c1 in
      (r :: rs, c2)
  end.

(** The results that went to the model, not to the response cache. *)
Definition uncached_results (rs : list (ClientExn + CreateResult)) : nat :=
  List.length (filter (fun r => match r with inr x => negb (cached x) | inl _ => false end) rs).

End LLMClient.

(* ------------------------------------------------------------------ *)
(** ** [ipy/magic_agent.py]: [NotebookAgent._collect_user_vars] *)

Module MagicAgent.

(** A value of the IPython user namespace: a [dict] (with [str] keys), or
    any other value. *)
Inductive NsValue := NDict (d : list (string * PyValue)) | NValue (v : PyValue).

(** [str.isspace()] on Latin-1. *)
Definition is_space (c : ascii) : bool :=
  let n := nat_of_ascii c in
  (Nat.leb 9 n && Nat.leb n 13) || (Nat.leb 28 n && Nat.leb n 32) ||
  Nat.eqb n 133 || Nat.eqb n 160.

Fixpoint lstrip (s : list ascii) : list ascii :=
  match s with
  | c :: s' => if is_space c then lstrip s' else s
  | [] => []
  end.

(** [str.strip()]. *)
Definition py_strip (s : string) : string :=
  string_of_list_ascii (rev (lstrip (rev (lstrip (list_ascii_of_string s))))).

Definition flush (cur : list ascii) : list string :=
  match cur with [] => [] | _ => [string_of_list_ascii (rev cur)] end.

Fixpoint split_go (cur : list ascii) (s : list ascii) : list string :=
  match s with
  | [] => flush cur
  | c :: s' => if is_space c then flush cur ++ split_go [] s' else split_go (c :: cur) s'
  end.

(** [str.split()]. *)
Definition py_split (s : string) : list string := split_go [] (list_ascii_of_string s).

(** [key in d] and [d[key]] on a dict with distinct keys. *)
Definition dict_get {V} (key : string) (d : list (string * V)) : option V :=
  match find (fun kv => String.eqb (fst kv) key) d with
  | Some (_, v) => Some v
  | None => None
  end.

(** [d[key] = value]: an existing key keeps its place. *)
Fixpoint dict_set {V} (key : string) (value : V) (d : list (string * V)) : list (string * V) :=
  match d with
  | [] => [(key, value)]
  | (k, v) :: d' => if String.eqb k key then (k, value) :: d' else (k, v) :: dict_set key value d'
  end.

(** [NotebookAgent._collect_user_vars(line)]; [user_ns] is [None] when
    there is no IPython shell or it has no [user_ns]. *)
Definition _collect_user_vars (user_ns : option (list (string * NsValue))) (line : string)
    : Namespace :=
  let ns := match user_ns with Some d => d | None => [] end in
  let names := py_split (py_strip line) in
  fold_left (fun out n =>
    match dict_get n ns with
    | Some (NDict v) =>
        fold_left (fun out kv => dict_set (n ++ "_" ++ fst kv)%string (snd kv) out) v out
    | Some (NValue v) => dict_set n v out
    | None => out
    end) names [].

(** The entries each listed name contributes, in the order they are
    assigned. *)
Definition contributions (ns : list (string * NsValue)) (names : list string)
    : list (string * PyValue) :=
  flat_map (fun n =>
    match dict_get n ns with
    | Some (NDict v) => map (fun kv => ((n ++ "_" ++ fst kv)%string, snd kv)) v
    | Some (NValue v) => [(n, v)]
    | None => []
    end) names.

(** The value of the last assignment to [key] in a list of assignments. *)
Definition last_assigned {V} (key : string) (l : list (string * V)) : option V :=
  fold_left (fun acc kv => if String.eqb (fst kv) key then Some (snd kv) else acc) l None.

(** Assignment of one pair into a dictionary. *)
Definition assign {V} (out : list (string * V)) (kv : string * V) := dict_set (fst kv) (snd kv) out.

End MagicAgent.

(** The calls to the UI's [save_to_notebook] recorded in a trace. *)
Definition saves (tr : list Workflow.Event) : list string :=
  flat_map (fun e => match e with Workflow.EvSave c => [c] | _ => [] end) tr.


(** Scenarios for the client and the sandbox. *)
Module ExtraScenarios.
Import LLMClient Sandbox.

(** A response of the model, not from the response cache. *)
Definition fresh_response : CreateResult :=
  {| cached := false; prompt_tokens := 10; completion_tokens := 2; result_content := "ok" |}.

(** Builds that fail. *)
Definition build_fails (w : World) (cmd : list string) : Z * string * string :=
  (1%Z, "", "error: failed to solve: python:3.13-slim: not found").

End ExtraScenarios.


Module WorkflowFacts.
Import Workflow.

(** The history the spec prescribes: one item per completed attempt,
    carrying the plan of the previous verdict ([p] for the first one), the
    code executed, its result and its verdict. *)
Fixpoint mk_items (p : option string) (E : list (string * ExecutionResult.t))
    (V : list CodeAssessmentResult.t) : list HistoryItem.t :=
  match E, V with
  | (c, r) :: E', a :: V' =>
      {| HistoryItem.plan := p; HistoryItem.code := c;
         HistoryItem.execution_result := r; HistoryItem.assessment := a |}
      :: mk_items (CodeAssessmentResult.plan a) E' V'
  | _, _ => []
  end.

Definition lastplan (p : option string) (V : list CodeAssessmentResult.t) : option string :=
  fold_left (fun _ a => CodeAssessmentResult.plan a) V p.

Lemma mk_items_snoc : forall E V p c r a,
  length E = length V ->
  mk_items p (E ++ [(c, r)]) (V ++ [a]) =
  mk_items p E V ++ [{| HistoryItem.plan := lastplan p V; HistoryItem.code := c;
                        HistoryItem.execution_result := r; HistoryItem.assessment := a |}].
Proof.
  induction E as [|[c0 r0] E IH]; destruct V as [|a0 V]; intros p c r a Hlen;
    simpl in *; try discriminate; try reflexivity.
  f_equal. apply IH. lia.
Qed.

Lemma mk_items_extra : forall E V p x,
  length E = length V -> mk_items p (E ++ [x]) V = mk_items p E V.
Proof.
  induction E as [|[c0 r0] E IH]; destruct V as [|a0 V]; intros p x Hlen;
    simpl in *; try discriminate.
  - destruct x; reflexivity.
  - f_equal. apply IH. lia.
Qed.

Lemma mk_items_length : forall E V p,
  length E = length V -> length (mk_items p E V) = length V.
Proof.
  induction E as [|[c0 r0] E IH]; destruct V as [|a0 V]; intros p Hlen;
    simpl in *; try discriminate; try reflexivity.
  f_equal. apply IH. lia.
Qed.

Lemma mk_items_length_le : forall E V p,
  length V <= length E -> length (mk_items p E V) = length V.
Proof.
  induction E as [|[c0 r0] E IH]; destruct V as [|a0 V]; intros p Hlen;
    simpl in *; try lia; try reflexivity.
  f_equal. apply IH. lia.
Qed.

Lemma lastplan_snoc : forall V p a,
  lastplan p (V ++ [a]) = CodeAssessmentResult.plan a.
Proof. intros. unfold lastplan. rewrite fold_left_app. reflexivity. Qed.

Lemma executions_app : forall t1 t2, executions (t1 ++ t2) = executions t1 ++ executions t2.
Proof. intros. unfold executions. apply flat_map_app. Qed.
Lemma verdicts_app : forall t1 t2, verdicts (t1 ++ t2) = verdicts t1 ++ verdicts t2.
Proof. intros. unfold verdicts. apply flat_map_app. Qed.
Lemma generations_app : forall t1 t2, generations (t1 ++ t2) = generations t1 ++ generations t2.
Proof. intros. unfold generations. apply flat_map_app. Qed.

Ltac trace_simpl :=
  rewrite ?executions_app, ?verdicts_app, ?generations_app, ?length_app in *.

Section LoopFacts.

Variable sandbox_execute : string -> Namespace -> option ExecutionResult.t.
Variable assess_code_output : CodeGenerationRequest.t -> ExecutionResult.t -> string ->
  list HistoryItem.t -> option CodeAssessmentResult.t.

Variable q : CodeGenerationRequest.t.
Variable N : Z.
Variable p0 : option string.

(** The state at the head of the [while True] loop. *)
Definition LoopInv (s : St) : Prop :=
  let '(w, tr) := s in
  request w = q /\ max_code_generation w = N /\ (0 <= code_generation_count w)%Z /\
  length (executions tr) = length (verdicts tr) /\
  length (verdicts tr) = Z.to_nat (code_generation_count w) /\
  history w = mk_items p0 (executions tr) (verdicts tr) /\
  CodeAssessmentResult.plan (assessment w) = lastplan p0 (verdicts tr).

(** What holds when the loop has ended, by any path, started from [s]. *)
Definition LoopPost (fuel : nat) (s : St) (o : Res ExitPoint * St) : Prop :=
  let '(w0, _) := s in
  let '(r, (w, tr)) := o in
  request w = q /\ max_code_generation w = N /\
  history w = mk_items p0 (executions tr) (verdicts tr) /\
  length (history w) = length (verdicts tr) /\
  length (verdicts tr) <= length (executions tr) <= S (length (verdicts tr)) /\
  ((forall e, r <> Raise e) -> LoopInv (w, tr)) /\
  (r = Ok ReturnAfterSuccess ->
     exists V a, verdicts tr = V ++ [a] /\ CodeAssessmentResult.success a = true) /\
  (r = Ok ReturnAfterBudget ->
     exists V a, verdicts tr = V ++ [a] /\ CodeAssessmentResult.success a = false /\
                 (N <= code_generation_count w)%Z) /\
  ((code_generation_count w0 < N)%Z ->
     (code_generation_count w <= N)%Z /\
     ((Z.to_nat (N - code_generation_count w0) < fuel)%nat -> r <> OutOfFuel)) /\
  ((forall c vs, sandbox_execute c vs <> None) ->
   (forall q' r' c h, assess_code_output q' r' c h <> None) -> forall e, r <> Raise e).

Ltac monad := unfold bind, get, modify, emit, ret, raise, call_execute, call_assess; cbn.

Ltac close_raise :=
  match goal with
  | H : forall e, Raise ?x <> Raise e |- _ => exfalso; exact (H x eq_refl)
  | H : sandbox_execute ?c ?v = None |- _ =>
      intros Hx _ e; injection 1; intros; exact (Hx _ _ H)
  | H : assess_code_output ?a ?b ?c ?d = None |- _ =>
      intros _ Hx e; injection 1; intros; exact (Hx _ _ _ _ H)
  end.

Lemma post_step : forall fuel w tr s1 o,
  LoopInv s1 ->
  code_generation_count (fst s1) = (code_generation_count w + 1)%Z ->
  (code_generation_count (fst s1) < N)%Z ->
  LoopPost fuel s1 o -> LoopPost (S fuel) (w, tr) o.
Proof.
  intros fuel w tr [w1 tr1] [r [w' tr']] Hinv Hc Hlt Hpost.
  cbn in Hc, Hlt |- *.
  destruct Hpost as (Hq & HN & Hh & Hl & Hle & Hinv' & Hsucc & Hbud & Hbound & Hraise).
  specialize (Hbound Hlt) as [Hb1 Hb2].
  refine (conj Hq (conj HN (conj Hh (conj Hl (conj Hle (conj Hinv'
            (conj Hsucc (conj Hbud (conj _ Hraise))))))))).
  intros _. split; [exact Hb1|]. intros Hf. apply Hb2. lia.
Qed.

Lemma loop_post : forall fuel s, LoopInv s ->
  LoopPost fuel s (loop sandbox_execute assess_code_output fuel s).
Proof.
  induction fuel as [|fuel IH]; intros [w tr] Hinv.
  - destruct Hinv as (Hq & HN & Hc & Hl1 & Hl2 & Hh & Hp).
    cbn.
    repeat split; try discriminate; try lia; auto;
      try (rewrite Hh; apply mk_items_length; assumption).
  - destruct Hinv as (Hq & HN & Hc & Hl1 & Hl2 & Hh & Hp).
    cbn [loop]. monad.
    destruct (sandbox_execute (current_code w) (CodeGenerationRequest.user_variables (request w)))
      as [r|] eqn:Hex; monad.
    2:{ repeat split; try discriminate; try lia; auto;
        try (rewrite Hh; apply mk_items_length; assumption); try close_raise. }
    destruct (assess_code_output (request w) r (current_code w) (history w)) as [a|] eqn:Has;
      monad.
    2:{ trace_simpl. cbn in *. rewrite ?app_nil_r, ?Nat.add_0_r in *.
        repeat split; try discriminate; try lia; auto;
        try (rewrite Hh; apply mk_items_length; assumption);
        try (rewrite Hh; symmetry; apply mk_items_extra; assumption); try close_raise. }
    set (it := {| HistoryItem.plan := CodeAssessmentResult.plan (assessment w);
                  HistoryItem.code := current_code w; HistoryItem.execution_result := r;
                  HistoryItem.assessment := a |}).
    set (w1 := append_history it (set_assessment a (incr_count (set_execution_result r w)))).
    set (tr1 := (tr ++ [EvExecute (current_code w) r]) ++ [EvAssess a]).
    assert (Hinv1 : LoopInv (w1, tr1)).
    { unfold LoopInv, w1, tr1. cbn. trace_simpl. cbn. rewrite ?app_nil_r.
      repeat split; auto; try lia.
      - rewrite Hh, mk_items_snoc by assumption. rewrite <- Hp. reflexivity.
      - rewrite lastplan_snoc. reflexivity. }
    assert (Hc1 : code_generation_count w1 = (code_generation_count w + 1)%Z) by reflexivity.
    destruct Hinv1 as (Hq1 & HN1 & Hc1' & Hl11 & Hl21 & Hh1 & Hp1).
    assert (Hv1 : verdicts tr1 = verdicts tr ++ [a]).
    { unfold tr1. trace_simpl. cbn. rewrite app_nil_r. reflexivity. }
    clearbody w1 tr1.
    destruct (CodeAssessmentResult.success a) eqn:Hs.
    + cbn. trace_simpl. cbn. rewrite ?app_nil_r, ?Nat.add_0_r.
      repeat split; auto; try lia; try discriminate;
        try (rewrite Hh1; apply mk_items_length; assumption);
        try (intros _; exists (verdicts tr), a; auto).
    + destruct (max_code_generation w <=? code_generation_count w + 1)%Z eqn:Hb.
      * apply Z.leb_le in Hb. cbn.
        repeat split; auto; try lia; try discriminate;
          try (rewrite Hh1; apply mk_items_length; assumption);
          try (intros _; exists (verdicts tr), a; repeat split; auto; lia).
      * apply Z.leb_gt in Hb.
        assert (Hlt : (code_generation_count w1 < N)%Z) by (rewrite Hc1; lia).
        destruct (CodeAssessmentResult.should_retry a);
          [destruct (truthy_str (CodeAssessmentResult.code a)) as [c|]|].
        -- assert (Hi : LoopInv (set_current_code c w1, tr1))
             by (unfold LoopInv; cbn; repeat split; auto).
           exact (post_step fuel w tr _ _ Hi Hc1 Hlt (IH _ Hi)).
        -- assert (Hi : LoopInv (w1, tr1)) by (unfold LoopInv; repeat split; auto).
           exact (post_step fuel w tr _ _ Hi Hc1 Hlt (IH _ Hi)).
        -- assert (Hi : LoopInv (w1, tr1)) by (unfold LoopInv; repeat split; auto).
           exact (post_step fuel w tr _ _ Hi Hc1 Hlt (IH _ Hi)).
Qed.

End LoopFacts.

Section RunFacts.

Variable generate_code : CodeGenerationRequest.t -> option CodeGenerationResult.t.
Variable sandbox_execute : string -> Namespace -> option ExecutionResult.t.
Variable assess_code_output : CodeGenerationRequest.t -> ExecutionResult.t -> string ->
  list HistoryItem.t -> option CodeAssessmentResult.t.
Variable empty_code_result : CodeGenerationResult.t.
Variable empty_execution_result : ExecutionResult.t.
Variable empty_assessment : CodeAssessmentResult.t.

Local Abbreviation run_of := (agent_run generate_code sandbox_execute assess_code_output
  empty_code_result empty_execution_result empty_assessment).
Local Abbreviation p0 := (CodeAssessmentResult.plan empty_assessment).

(** Either generation raises before anything else happens, or exactly one
    generation opens the trace and the loop starts from its invariant. *)
Lemma agent_run_cases : forall q N,
  (generate_code q = None /\
   run_of q N = (Raise GenerationFailed,
                 (new_workflow empty_code_result empty_execution_result empty_assessment q N, [])))
  \/
  (exists g, generate_code q = Some g /\
   let s := (set_current_code (CodeGenerationResult.code g)
               (set_code_result g (new_workflow empty_code_result empty_execution_result
                                     empty_assessment q N)), [EvGenerate g]) in
   LoopInv q N p0 s /\
   run_of q N = loop sandbox_execute assess_code_output (S (Z.to_nat N)) s).
Proof.
  intros q N. unfold agent_run, run, bind, get, modify, emit, ret, raise, call_generate. cbn.
  destruct (generate_code q) as [g|] eqn:Hg.
  - right. exists g. split; [reflexivity|]. split; [|reflexivity].
    unfold LoopInv. cbn. repeat split; lia.
  - left. split; reflexivity.
Qed.


(** Claim C5: after every completed execute-then-assess attempt exactly
    one history item is appended, carrying the plan of the previous verdict,
    the code run, its result and its verdict, before the loop decides
    whether to stop; so the history has one item per completed attempt on
    every path, and one per executed attempt when [run] returns. *)
Theorem history_one_item_per_attempt : forall q N,
  let '(r, (w, tr)) := run_of q N in
  history w = mk_items p0 (executions tr) (verdicts tr) /\
  length (history w) = length (verdicts tr) /\
  (forall e, r = Ok e -> length (executions tr) = length (history w)).
Proof.
  intros q N.
  destruct (agent_run_cases q N) as [[_ ->] | (g & _ & Hinv & ->)].
  - cbn. repeat split; discriminate.
  - pose proof (loop_post sandbox_execute assess_code_output q N p0 (S (Z.to_nat N)) _ Hinv) as Hpost.
    destruct (loop sandbox_execute assess_code_output _ _) as [r [w tr]].
    destruct Hpost as (_ & _ & Hh & Hl & _ & Hinv' & _).
    repeat split; auto.
    intros e ->.
    destruct (Hinv' ltac:(discriminate)) as (_ & _ & _ & Hl1 & _).
    lia.
Qed.

(** Claim C2: for [max_code_generation = N >= 1] and collaborators that
    return, the run performs at most [N] execute-then-assess cycles and
    returns through exactly one terminal condition: the last verdict is a
    success, or it is not and the budget of [N] attempts is spent. *)
Theorem run_at_most_N_cycles : forall q N,
  (1 <= N)%Z ->
  (forall q', generate_code q' <> None) ->
  (forall c vs, sandbox_execute c vs <> None) ->
  (forall q' r c h, assess_code_output q' r c h <> None) ->
  let '(r, (w, tr)) := run_of q N in
  length (executions tr) <= Z.to_nat N /\
  length (executions tr) = length (verdicts tr) /\
  ((r = Ok ReturnAfterSuccess /\
    exists V a, verdicts tr = V ++ [a] /\ CodeAssessmentResult.success a = true) \/
   (r = Ok ReturnAfterBudget /\
    exists V a, verdicts tr = V ++ [a] /\ CodeAssessmentResult.success a = false /\
                length (executions tr) = Z.to_nat N)).
Proof.
  intros q N HN Hg He Ha.
  destruct (agent_run_cases q N) as [[Hg0 _] | (g & _ & Hinv & ->)].
  - exfalso. exact (Hg q Hg0).
  - pose proof (loop_post sandbox_execute assess_code_output q N p0 (S (Z.to_nat N)) _ Hinv) as Hpost.
    destruct (loop sandbox_execute assess_code_output _ _) as [r [w tr]].
    destruct Hpost as (_ & _ & _ & _ & _ & Hinv' & Hsucc & Hbud & Hbound & Hraise).
    cbn in Hbound. destruct (Hbound ltac:(lia)) as [Hle Hfuel].
    specialize (Hraise He Ha).
    destruct (Hinv' Hraise) as (_ & _ & Hc & Hl1 & Hl2 & _).
    destruct r as [e| e |].
    + destruct e.
      * destruct (Hsucc eq_refl) as (V & a & HV & Hs).
        repeat split; try lia. left. split; [reflexivity|]. exists V, a. auto.
      * destruct (Hbud eq_refl) as (V & a & HV & Hs & HNc).
        repeat split; try lia. right. split; [reflexivity|]. exists V, a.
        repeat split; auto; lia.
    + exfalso. exact (Hraise e eq_refl).
    + exfalso. apply (Hfuel ltac:(lia)). reflexivity.
Qed.

End RunFacts.
End WorkflowFacts.

Module WorkflowClaims.
Import Workflow WorkflowScenarios WorkflowFacts.

Lemma run_at_most_N_cycles_witness :
  (1 <= 3)%Z /\
  (forall q', gen_hello q' <> None) /\
  (forall c vs, exec_hello c vs <> None) /\
  (forall q' r c h, assess_const (verdict true false None) q' r c h <> None) /\
  (let '(r, (w, tr)) := run_with (verdict true false None) 3 in
   length (executions tr) <= Z.to_nat 3 /\
   length (executions tr) = length (verdicts tr) /\
   ((r = Ok ReturnAfterSuccess /\
     exists V a, verdicts tr = V ++ [a] /\ CodeAssessmentResult.success a = true) \/
    (r = Ok ReturnAfterBudget /\
     exists V a, verdicts tr = V ++ [a] /\ CodeAssessmentResult.success a = false /\
                 length (executions tr) = Z.to_nat 3))).
Proof.
  assert (Hg : forall q', gen_hello q' <> None) by discriminate.
  assert (He : forall c vs, exec_hello c vs <> None) by discriminate.
  assert (Ha : forall q' r c h, assess_const (verdict true false None) q' r c h <> None)
    by discriminate.
  split; [lia|]. split; [exact Hg|]. split; [exact He|]. split; [exact Ha|].
  exact (run_at_most_N_cycles gen_hello exec_hello (assess_const (verdict true false None))
           empty_gen empty_exec empty_verdict req 3 ltac:(lia) Hg He Ha).
Defined.

(** Claim C1 (the code does not do what the claim says): a verdict that is
    not a success and declines to retry, with the budget of 3 not spent,
    does not stop the loop; the generated code is executed again until the
    budget is spent. *)
Theorem declined_retry_executes_again :
  let o := run_with (verdict false false None) 3 in
  fst o = Ok ReturnAfterBudget /\
  executed_codes o = ["print('hello')"; "print('hello')"; "print('hello')"].
Proof. vm_compute. split; reflexivity. Qed.

(** Claim C6 (the code does not do what the claim says): generation runs
    once, but when the first verdict asks for a retry without code (an
    empty [code], as the sample fakes send), the second attempt executes
    the generated code again rather than code supplied by the assessor. *)
Theorem second_attempt_reuses_generated_code :
  let o := run_with (verdict false true (Some "")) 2 in
  length (generations (snd (snd o))) = 1 /\
  executed_codes o = ["print('hello')"; "print('hello')"].
Proof. vm_compute. split; reflexivity. Qed.

End WorkflowClaims.

Module ScanFacts.
Import Scan.

Lemma id_start_continue : forall c, id_start c = true -> id_continue c = true.
Proof. intros c H. unfold id_continue. rewrite H. reflexivity. Qed.

Lemma id_continue_word : forall c, id_continue c = true -> is_word c = true.
Proof. intros c H. unfold is_word. rewrite H. reflexivity. Qed.

Lemma nonword_not_continue : forall c, is_word c = false -> id_continue c = false.
Proof.
  intros c H. destruct (id_continue c) eqn:E; [|reflexivity].
  rewrite (id_continue_word c E) in H. discriminate.
Qed.

Lemma star_then_b_sound : forall s last m r,
  is_word last = true -> star_then_b last s = Some (m, r) ->
  s = m ++ r /\ forallb id_continue m = true /\ word_at (hd_error r) = false.
Proof.
  induction s as [|c s IH]; intros last m r Hl H; cbn in H.
  - unfold boundary in H. cbn in H. rewrite Hl in H. cbn in H.
    injection H as <- <-. auto.
  - unfold boundary in H. cbn in H. rewrite Hl in H.
    destruct (id_continue c) eqn:Hc.
    + destruct (star_then_b c s) as [[m' r']|] eqn:Hs.
      * injection H as <- <-.
        destruct (IH c m' r' (id_continue_word c Hc) Hs) as (-> & Hm & Hr).
        cbn. rewrite Hc, Hm. auto.
      * rewrite (id_continue_word c Hc) in H. discriminate.
    + destruct (is_word c) eqn:Hw; cbn in H; [discriminate|].
      injection H as <- <-. cbn. auto.
Qed.

Lemma star_then_b_complete : forall m r last,
  is_word last = true -> forallb id_continue m = true -> word_at (hd_error r) = false ->
  star_then_b last (m ++ r) = Some (m, r).
Proof.
  induction m as [|c m IH]; intros r last Hl Hm Hr.
  - destruct r as [|c r]; cbn in *; unfold boundary; cbn; rewrite Hl; cbn.
    + reflexivity.
    + rewrite (nonword_not_continue c Hr), Hr. reflexivity.
  - cbn in Hm. apply andb_prop in Hm as [Hc Hm].
    cbn. rewrite Hc, (IH r c (id_continue_word c Hc) Hm Hr). reflexivity.
Qed.

Lemma match_at_sound : forall prev s t r,
  match_at prev s = Some (t, r) ->
  s = t ++ r /\ ascii_identifier t = true /\ word_at prev = false /\
  word_at (hd_error r) = false.
Proof.
  intros prev [|c s] t r H; cbn in H; [discriminate|].
  destruct (boundary prev (Some c) && id_start c) eqn:Hb; [|discriminate].
  apply andb_prop in Hb as [Hb Hc].
  assert (Hw : is_word c = true) by (apply id_continue_word, id_start_continue; exact Hc).
  destruct (star_then_b c s) as [[m r']|] eqn:Hs; [|discriminate].
  injection H as <- <-.
  destruct (star_then_b_sound s c m r' Hw Hs) as (-> & Hm & Hr).
  unfold boundary in Hb. cbn in Hb. rewrite Hw in Hb.
  destruct (word_at prev); [discriminate|].
  cbn. rewrite Hc, Hm. auto.
Qed.

Lemma match_at_complete : forall prev t r,
  ascii_identifier t = true -> word_at prev = false -> word_at (hd_error r) = false ->
  match_at prev (t ++ r) = Some (t, r).
Proof.
  intros prev [|c t] r Ht Hp Hr; [discriminate|].
  cbn in Ht. apply andb_prop in Ht as [Hc Ht].
  assert (Hw : is_word c = true) by (apply id_continue_word, id_start_continue; exact Hc).
  cbn. unfold boundary. rewrite Hp, Hc. cbn. rewrite Hw. cbn.
  rewrite (star_then_b_complete t r c Hw Ht Hr). reflexivity.
Qed.

Lemma lastc_app : forall prev l1 l2, lastc prev (l1 ++ l2) = lastc (lastc prev l1) l2.
Proof. intros. unfold lastc. apply fold_left_app. Qed.

Lemma lastc_word : forall l prev,
  l <> [] -> forallb is_word l = true -> word_at (lastc prev l) = true.
Proof.
  induction l as [|c l IH]; intros prev Hne Hw; [contradiction|].
  cbn in Hw. apply andb_prop in Hw as [Hc Hw].
  change (lastc prev (c :: l)) with (lastc (Some c) l).
  destruct l as [|c' l]; [exact Hc|].
  apply IH; [discriminate|exact Hw].
Qed.

Lemma ascii_identifier_word : forall t,
  ascii_identifier t = true -> t <> [] /\ forallb is_word t = true.
Proof.
  intros [|c t] H; [discriminate|]. cbn in H. apply andb_prop in H as [Hc Ht].
  split; [discriminate|]. cbn.
  rewrite (id_continue_word c (id_start_continue c Hc)). cbn.
  clear Hc. induction t as [|c' t IH]; [reflexivity|].
  cbn in *. apply andb_prop in Ht as [Hc' Ht].
  rewrite (id_continue_word c' Hc'). cbn. apply IH. exact Ht.
Qed.

Lemma forallb_app_l : forall (f : ascii -> bool) l1 l2,
  forallb f (l1 ++ l2) = true -> forallb f l1 = true.
Proof.
  intros f l1 l2 H. rewrite forallb_app in H. apply andb_prop in H. apply H.
Qed.

Lemma findall_go_sound : forall fuel prev s t,
  In t (findall_go fuel prev s) -> token_in prev s t.
Proof.
  induction fuel as [|fuel IH]; intros prev s t H; cbn in H; [contradiction|].
  destruct s as [|c s']; [contradiction|].
  destruct (match_at prev (c :: s')) as [[m r]|] eqn:Hm.
  - destruct (match_at_sound _ _ _ _ Hm) as (Hs & Hid & Hp & Hr).
    destruct H as [<- | H].
    + exists [], r. auto.
    + destruct (IH _ _ _ H) as (pre & post & -> & Ht & Hpre & Hpost).
      exists (m ++ pre), post. rewrite Hs, lastc_app, <- !app_assoc. auto.
  - destruct (IH _ _ _ H) as (pre & post & -> & Ht & Hpre & Hpost).
    exists (c :: pre), post. auto.
Qed.

Lemma findall_go_complete : forall fuel prev s t,
  length s < fuel -> token_in prev s t -> In t (findall_go fuel prev s).
Proof.
  induction fuel as [|fuel IH]; intros prev s t Hlen (pre & post & Hs & Ht & Hpre & Hpost);
    [lia|].
  destruct (ascii_identifier_word t Ht) as [Htne Htw].
  destruct s as [|c s']; [destruct pre, t; discriminate|].
  cbn [findall_go].
  destruct (match_at prev (c :: s')) as [[m r]|] eqn:Hm.
  - destruct (match_at_sound _ _ _ _ Hm) as (Hs' & Hid & Hp & Hr).
    destruct pre as [|p pre'].
    + cbn in Hs. rewrite Hs, (match_at_complete prev t post Ht Hp Hpost) in Hm.
      injection Hm as <- <-. left. reflexivity.
    + right.
      destruct (ascii_identifier_word m Hid) as [Hmne Hmw].
      rewrite Hs' in Hs.
      destruct (app_eq_app _ _ _ _ Hs) as (l & [[Hm1 Hm2] | [Hp1 Hp2]]).
      * exfalso. rewrite Hm1 in Hmw. apply forallb_app_l in Hmw.
        rewrite (lastc_word (p :: pre') prev ltac:(discriminate) Hmw) in Hpre. discriminate.
      * apply IH.
        -- assert (Hl : length (c :: s') = length m + length r)
             by (rewrite Hs', length_app; reflexivity).
           destruct m; [contradiction|]. cbn in Hl, Hlen. lia.
        -- exists l, post. split; [exact Hp2|]. split; [exact Ht|].
           rewrite <- lastc_app, <- Hp1. auto.
  - destruct pre as [|p pre'].
    + cbn in Hs. rewrite Hs, (match_at_complete prev t post Ht Hpre Hpost) in Hm. discriminate.
    + cbn in Hs. injection Hs as -> Hs. apply IH.
      * cbn in Hlen. lia.
      * exists pre', post. auto.
Qed.

Lemma findall_iff : forall k code, In k (findall code) <-> occurs_as_token k code.
Proof.
  intros k code. unfold findall, occurs_as_token. rewrite in_map_iff. split.
  - intros (x & <- & Hx). rewrite list_ascii_of_string_of_list_ascii.
    exact (findall_go_sound _ _ _ _ Hx).
  - intros H. exists (list_ascii_of_string k). split.
    + apply string_of_list_ascii_of_string.
    + apply findall_go_complete; [lia | exact H].
Qed.

End ScanFacts.

Module ScanClaims.
Import Scan ScanFacts.

(** Claim C3 (counterexample): the key [cafe] (with an accented [e], a valid
    Python identifier) is the whole code text, so it occurs in it as an
    identifier token, yet the filter does not select it. *)
Theorem non_ascii_identifier_not_selected :
  find_used_variables cafe [(cafe, VOther true)] = [].
Proof. vm_compute. reflexivity. Qed.

(** Claim C3 (amended): the filter keeps exactly the entries of the mapping
    whose key occurs in the code as a maximal run of word characters made of
    ASCII letters, digits and underscores and starting with a letter or an
    underscore. *)
Theorem find_used_variables_iff : forall (V : Type) code (ns : list (string * V)) k v,
  In (k, v) (find_used_variables code ns) <-> In (k, v) ns /\ occurs_as_token k code.
Proof.
  intros V code ns k v. unfold find_used_variables. rewrite filter_In. cbn.
  rewrite existsb_exists, <- findall_iff. split.
  - intros [Hin (x & Hx & Heq)]. apply String.eqb_eq in Heq. subst x. auto.
  - intros [Hin Hx]. split; [exact Hin|]. exists k. split; [exact Hx|].
    apply String.eqb_refl.
Qed.

End ScanClaims.
Module SandboxFacts.
Import Sandbox.

(** The fields of the host that only the filesystem operations leave alone. *)
Definition Frame (w w' : World) : Prop :=
  images w' = images w /\ env w' = env w /\ builds w' = builds w /\
  cli_log w' = cli_log w /\ cli_available w' = cli_available w /\
  host_is_root w' = host_is_root w /\ package_prelude w' = package_prelude w.

Lemma Frame_refl w : Frame w w.
Proof. repeat split. Qed.

Lemma Frame_trans w1 w2 w3 : Frame w1 w2 -> Frame w2 w3 -> Frame w1 w3.
Proof. unfold Frame; intuition congruence. Qed.

Lemma Frame_with_fs f w : Frame w (with_fs f w).
Proof. repeat split. Qed.

Lemma Frame_with_rand n w : Frame w (with_rand n w).
Proof. repeat split. Qed.

Lemma string_append_assoc (a b c : string) :
  ((a ++ b) ++ c)%string = (a ++ (b ++ c))%string.
Proof. induction a as [|x a IH]; cbn; [reflexivity | now rewrite IH]. Qed.

Lemma string_append_nil (a : string) : (a ++ "")%string = a.
Proof. induction a as [|x a IH]; cbn; [reflexivity | now rewrite IH]. Qed.

Lemma render_snoc (p : path) (s : string) :
  p <> [] -> render (p ++ [s]) = (render p ++ "/" ++ s)%string.
Proof.
  intros Hp. destruct p as [|x p]; [congruence|].
  assert (E : forall q, fold_right (fun seg acc => "/" ++ seg ++ acc)%string "" (q ++ [s])
            = (fold_right (fun seg acc => "/" ++ seg ++ acc)%string "" q ++ "/" ++ s)%string).
  { induction q as [|y q IH]; cbn [app fold_right].
    - cbn. now rewrite string_append_nil.
    - rewrite IH. cbn [String.append]. f_equal. now rewrite string_append_assoc. }
  unfold render. exact (E (x :: p)).
Qed.

Lemma path_eqb_true p q : path_eqb p q = true -> p = q.
Proof. unfold path_eqb. destruct (list_eq_dec string_dec p q); congruence. Qed.

Lemma path_eqb_refl p : path_eqb p p = true.
Proof. unfold path_eqb. destruct (list_eq_dec string_dec p p); congruence. Qed.

Lemma is_prefix_removelast r d :
  is_prefix r d = true -> r <> d -> is_prefix r (removelast d) = true.
Proof.
  revert d. induction r as [|x r IH]; intros d H Hne; [reflexivity|].
  destruct d as [|y d]; [discriminate|].
  cbn [is_prefix] in H. apply andb_prop in H as [Hxy H].
  apply String.eqb_eq in Hxy. subst y.
  destruct d as [|z d].
  - destruct r; [congruence | discriminate].
  - change (removelast (x :: z :: d)) with (x :: removelast (z :: d)).
    cbn [is_prefix]. rewrite String.eqb_refl, andb_true_l.
    apply (IH (z :: d)); [exact H | congruence].
Qed.

Lemma lookup_in p f e : lookup p f = Some e -> In (p, e) f.
Proof.
  unfold lookup. destruct (find _ f) as [[q e']|] eqn:F; [|discriminate].
  intros [= <-]. apply find_some in F as [Hin Heq].
  cbn in Heq. apply path_eqb_true in Heq. now subst.
Qed.

(** No directory created by the container lies under [root]. *)
Definition NoContainerDir (root : path) (w : World) : Prop :=
  forall p, is_prefix root p = true -> ~ In (p, EDir Container) (fs w).

(** What [shutil.rmtree(root, ignore_errors=True)] leaves under [root]
    when it can remove everything. *)
Lemma rmtree_clears root w :
  host_is_root w = true \/ NoContainerDir root w ->
  forall pe, In pe (fs (rmtree_ignore_errors root w)) -> is_prefix root (fst pe) = false.
Proof.
  intros Hw pe Hin. cbn in Hin. apply filter_In in Hin as [Hin Hk].
  destruct (is_prefix root (fst pe)) eqn:Hp; [|reflexivity]. exfalso.
  cbn in Hk. unfold survives in Hk.
  destruct Hw as [Hr | Hnc].
  - rewrite Hr in Hk. discriminate.
  - apply andb_prop in Hk as [_ Hk]. apply existsb_exists in Hk as [[d e] [Hd Hc]].
    cbn in Hc. apply andb_prop in Hc as [Hc Hlock].
    apply andb_prop in Hc as [Hc _]. apply andb_prop in Hc as [Hne Hrd].
    unfold parent_locked in Hlock.
    destruct (lookup (removelast d) (fs w)) as [[[|]|o c]|] eqn:L; try discriminate.
    apply lookup_in in L.
    apply (Hnc (removelast d)); [|exact L].
    apply is_prefix_removelast; [exact Hrd|].
    intros ->. rewrite path_eqb_refl in Hne. discriminate.
Qed.

(** [mkdtemp] returns a name no entry of the filesystem starts with, and
    creates it as a directory of the host. *)
Lemma mkdtemp_go_spec tries prefix n w :
  match mkdtemp_go tries prefix n w with
  | (Ok c, w') =>
      (exists k, c = ["tmp"; (prefix ++ digits k)%string]) /\
      fs w' = (c, EDir Host) :: fs w /\
      forallb (fun pe => negb (is_prefix c (fst pe))) (fs w) = true /\ Frame w w'
  | (Raise e, w') => e = OSError "FileExistsError" /\ fs w' = fs w /\ Frame w w'
  end.
Proof.
  revert n. induction tries as [|t IH]; intros n; cbn [mkdtemp_go].
  - refine (conj eq_refl (conj eq_refl (Frame_with_rand _ _))).
  - destruct (existsb _ (fs w)) eqn:E.
    + apply IH.
    + refine (conj (ex_intro _ n eq_refl) (conj eq_refl (conj _ _))).
      2: { eapply Frame_trans; [apply Frame_with_rand | apply Frame_with_fs]. }
      rewrite forallb_forall. intros pe Hin.
      destruct (is_prefix _ (fst pe)) eqn:Hp; [|reflexivity].
      exfalso. assert (existsb (fun pe => is_prefix ["tmp"; (prefix ++ digits n)%string] (fst pe)) (fs w) = true)
        by (apply existsb_exists; eauto). congruence.
Qed.

Lemma mkdtemp_spec prefix w :
  match mkdtemp prefix w with
  | (Ok c, w') =>
      (exists k, c = ["tmp"; (prefix ++ digits k)%string]) /\
      fs w' = (c, EDir Host) :: fs w /\
      forallb (fun pe => negb (is_prefix c (fst pe))) (fs w) = true /\ Frame w w'
  | (Raise e, w') => e = OSError "FileExistsError" /\ fs w' = fs w /\ Frame w w'
  end.
Proof. apply mkdtemp_go_spec. Qed.

Lemma read_file_tmp_dockerfile nm o T f :
  read_file (render ["tmp"; nm] ++ "/Dockerfile")%string
    ((["tmp"; nm; "Dockerfile"], EFile o T) :: f) = Some T.
Proof.
  unfold read_file. cbn [find fst].
  change ["tmp"; nm; "Dockerfile"] with (["tmp"; nm] ++ ["Dockerfile"]).
  rewrite render_snoc by discriminate. now rewrite String.eqb_refl.
Qed.


(** Case analysis on every [match] of a goal, innermost scrutinee first. *)
Ltac split_matches :=
  repeat (cbn beta iota in *; match goal with
  | |- context [match ?x with _ => _ end] => is_var x; destruct x
  | |- context [match ?x with _ => _ end] =>
      lazymatch x with
      | match _ with _ => _ end => fail
      | _ => destruct x eqn:?
      end
  end).

(** A Docker CLI call leaves the host's privileges alone, and changes its
    filesystem only by what a container run writes. *)
Lemma cli_frame bo ro cmd w :
  let w' := snd (docker_cli bo ro cmd w) in
  host_is_root w' = host_is_root w /\
  (fs w' = fs w \/ fs w' = rev (snd (ro w cmd)) ++ fs w).
Proof.
  unfold docker_cli. destruct (cli_available w); cbn [negb].
  2: { cbn. auto. }
  split_matches; cbn in *; subst; auto.
Qed.

(** A Docker CLI call that returns appends itself and its result to the log. *)
Lemma cli_log_spec bo ro cmd w :
  let '(r, w') := docker_cli bo ro cmd w in
  match r with
  | Ok p => cli_log w' = cli_log w ++ [(cmd, p)]
  | Raise _ => True
  end.
Proof.
  unfold docker_cli. destruct (cli_available w); cbn [negb].
  2: { cbn. auto. }
  split_matches; cbn in *; subst; auto.
Qed.

Section EnsureImage.
Variable build_outcome : World -> list string -> Z * string * string.
Variable run_outcome : World -> list string -> Z * string * string * list (path * Entry).
Local Abbreviation ensure := (ensure_image build_outcome run_outcome).
Local Abbreviation cli := (docker_cli build_outcome run_outcome).

Lemma cli_unavailable cmd w :
  cli_available w = false -> cli cmd w = (Raise (OSError "docker"), w).
Proof. intros H. unfold docker_cli. now rewrite H. Qed.

Lemma cli_inspect img w :
  cli_available w = true ->
  cli ["docker"; "image"; "inspect"; img] w =
    (Ok {| prc := if existsb (String.eqb img) (images w) then 0%Z else 1%Z;
           pstdout := ""; pstderr := "" |},
     with_log (cli_log w ++ [(["docker"; "image"; "inspect"; img],
        {| prc := if existsb (String.eqb img) (images w) then 0%Z else 1%Z;
           pstdout := ""; pstderr := "" |})]) w).
Proof. intros H. unfold docker_cli. now rewrite H. Qed.

Lemma existsb_eqb_head img l : existsb (String.eqb img) (img :: l) = true.
Proof. cbn. now rewrite String.eqb_refl. Qed.

(** What one call of [ensure_image] does. *)
Lemma ensure_spec img d w :
  let '(r, w') := ensure img d w in
  cli_available w' = cli_available w /\
  (r = Ok tt -> existsb (String.eqb img) (images w') = true) /\
  (existsb (String.eqb img) (images w) = true \/ cli_available w = false ->
     builds w' = builds w) /\
  (existsb (String.eqb img) (images w) = true -> cli_available w = true -> r = Ok tt) /\
  (existsb (String.eqb img) (images w) = false -> cli_available w = true ->
   match d with
   | Some df =>
       builds w' = builds w ++ [(build_cmd_explicit img df, read_file (render df) (fs w))]
   | None =>
       (exists k, builds w' = builds w ++
          [(build_cmd_temp img ["tmp"; ("llm_analyze_build_" ++ digits k)%string],
            Some _DOCKERFILE_TEXT)]) \/
       (builds w' = builds w /\ r = Raise (OSError "FileExistsError"))
   end).
Proof.
  unfold ensure_image, with_tempdir, try_finally, bind, ret, raise.
  destruct (cli_available w) eqn:Hcli.
  2: { rewrite cli_unavailable by exact Hcli.
       refine (conj _ (conj _ (conj _ (conj _ _)))); intros; try discriminate; auto; try congruence. }
  rewrite cli_inspect by exact Hcli. cbn [prc].
  destruct (existsb (String.eqb img) (images w)) eqn:Hi; cbn [Z.eqb].
  { refine (conj _ (conj _ (conj _ (conj _ _)))); intros; try discriminate; auto; try congruence. }
  destruct d as [df|].
  - unfold docker_cli at 1. cbn [cli_available with_log]. rewrite Hcli. cbn [negb].
    unfold build_cmd_explicit.
    destruct (build_outcome _ _) as [[rc out] err] eqn:Hb.
    cbn. destruct (rc =? 0)%Z eqn:Hrc; cbn;
      refine (conj _ (conj _ (conj _ (conj _ _)))); intros; try discriminate;
      rewrite ?Hrc, ?String.eqb_refl; auto.
    + destruct H; discriminate.
    + destruct H; discriminate.
  - destruct (mkdtemp "llm_analyze_build_" _) as [[ctx|e] w2] eqn:Hm;
      pose proof (mkdtemp_spec "llm_analyze_build_"
        (with_log (cli_log w ++ [(["docker"; "image"; "inspect"; img],
           {| prc := 1; pstdout := ""; pstderr := "" |})]) w)) as Hms;
      rewrite Hm in Hms.
    + destruct Hms as ([k ->] & Hfs & _ & (Him & _ & Hbu & _ & Hca & _)).
      cbn in Him, Hbu, Hca.
      unfold write_file. unfold docker_cli at 1. cbn [cli_available with_fs]. rewrite Hca, Hcli.
      cbn [negb]. unfold build_cmd_temp.
      destruct (build_outcome _ _) as [[rc out] err] eqn:Hb.
      cbn.
      match goal with |- context [read_file ?s ?f] =>
        replace (read_file s f) with (Some _DOCKERFILE_TEXT)
          by (symmetry; exact (read_file_tmp_dockerfile
                     ("llm_analyze_build_" ++ digits k) Host _DOCKERFILE_TEXT _)) end.
      cbn. destruct (rc =? 0)%Z eqn:Hrc; cbn;
        refine (conj _ (conj _ (conj _ (conj _ _)))); intros; try discriminate;
        rewrite ?Hrc, ?String.eqb_refl, ?Hca, ?Hbu, ?Him; auto;
        try (destruct H; discriminate); try (left; exists k; reflexivity).
    + destruct Hms as (-> & _ & (Him & _ & Hbu & _ & Hca & _)).
      cbn in Him, Hbu, Hca. cbn.
      refine (conj _ (conj _ (conj _ (conj _ _)))); intros; try discriminate;
        rewrite ?Hca, ?Hbu; auto; try (destruct H; discriminate).
Qed.
Lemma ensure_ok_cli img d w w' :
  ensure img d w = (Ok tt, w') -> cli_available w = true.
Proof.
  intros E. destruct (cli_available w) eqn:H; [reflexivity|].
  unfold ensure_image, bind in E. rewrite cli_unavailable in E by exact H. discriminate.
Qed.

Lemma ensure_builds_grow img d w :
  let '(r, w') := ensure img d w in
  builds w' = builds w \/ exists b, builds w' = builds w ++ [b].
Proof.
  pose proof (ensure_spec img d w) as S.
  destruct (ensure img d w) as [r w'].
  destruct S as (_ & _ & Hsame & _ & Hbuild).
  destruct (cli_available w) eqn:Hc.
  - destruct (existsb (String.eqb img) (images w)) eqn:Hi.
    + left. apply Hsame. left. reflexivity.
    + specialize (Hbuild eq_refl eq_refl). destruct d as [df|].
      * right. eexists. exact Hbuild.
      * destruct Hbuild as [[k Hk] | [Hk _]]; [right; eexists; exact Hk | left; exact Hk].
  - left. apply Hsame. right. reflexivity.
Qed.

End EnsureImage.

Section Cleanup.
Variable build_outcome : World -> list string -> Z * string * string.
Variable run_outcome : World -> list string -> Z * string * string * list (path * Entry).
Variable root : path.
Variable h : bool.

(** The invariant of [execute] for its workspace [root]: whether the host
    runs as root never changes, and unless it does, no directory under
    [root] was created by the container. *)
Definition CInv (w : World) : Prop :=
  host_is_root w = h /\ (h = true \/ NoContainerDir root w).

Definition Pres {A} (m : RM A) : Prop := forall w, CInv w -> CInv (snd (m w)).

Hypothesis Hh : h = true \/ forall w c p, ~ In (p, EDir Container) (snd (run_outcome w c)).

Lemma CInv_step w w' :
  host_is_root w' = host_is_root w ->
  (h = true \/ forall p, In (p, EDir Container) (fs w') -> In (p, EDir Container) (fs w)) ->
  CInv w -> CInv w'.
Proof.
  intros Hr Hs [Hw Hn]. split; [congruence|].
  destruct Hs as [Ht|Hs]; [left; exact Ht|].
  destruct Hn as [Ht|Hn]; [left; exact Ht|].
  right. intros p Hp Hin. exact (Hn p Hp (Hs p Hin)).
Qed.

Lemma CInv_cons_host w w' q e :
  host_is_root w' = host_is_root w -> fs w' = (q, e) :: fs w -> e <> EDir Container ->
  CInv w -> CInv w'.
Proof.
  intros Hr Hf He. apply CInv_step; [exact Hr|]. right. intros p Hin.
  rewrite Hf in Hin. destruct Hin as [E|Hin]; [|exact Hin].
  injection E as _ E. congruence.
Qed.

Lemma Pres_bind {A B} (m : RM A) (k : A -> RM B) :
  Pres m -> (forall a, Pres (k a)) -> Pres (bind m k).
Proof.
  intros Hm Hk w Hw. unfold bind. specialize (Hm w Hw).
  destruct (m w) as [[a|e] w1]; cbn in *; auto. apply Hk, Hm.
Qed.

Lemma Pres_ret {A} (a : A) : Pres (ret a).
Proof. intros w Hw. exact Hw. Qed.

Lemma Pres_raise {A} e : Pres (@raise A e).
Proof. intros w Hw. exact Hw. Qed.

Lemma Pres_dep {A} (f : World -> RM A) : (forall w0, Pres (f w0)) -> Pres (fun w => f w w).
Proof. intros Hf w Hw. exact (Hf w w Hw). Qed.

Lemma Pres_try_finally {A} (m : RM A) c :
  Pres m -> (forall w, CInv w -> CInv (c w)) -> Pres (try_finally m c).
Proof.
  intros Hm Hc w Hw. unfold try_finally. specialize (Hm w Hw).
  destruct (m w) as [r w1]. cbn in *. auto.
Qed.

Lemma Pres_for_each {A} (l : list A) f : (forall x, Pres (f x)) -> Pres (for_each l f).
Proof.
  intros Hf. induction l as [|x l IH]; cbn [for_each].
  - apply Pres_ret.
  - apply Pres_bind; [apply Hf | intros _; exact IH].
Qed.

Lemma Pres_mkdtemp prefix : Pres (mkdtemp prefix).
Proof.
  intros w Hw. pose proof (mkdtemp_spec prefix w) as Hs.
  destruct (mkdtemp prefix w) as [[c|e] w']; cbn [snd].
  - destruct Hs as (_ & Hf & _ & (_ & _ & _ & _ & _ & Hr & _)).
    eapply CInv_cons_host; [exact Hr | exact Hf | discriminate | exact Hw].
  - destruct Hs as (_ & Hf & (_ & _ & _ & _ & _ & Hr & _)).
    apply (CInv_step w); [exact Hr | right; rewrite Hf; auto | exact Hw].
Qed.

Lemma Pres_mkdir p : Pres (mkdir p).
Proof.
  intros w Hw. unfold mkdir. destruct (existsb _ _); [exact Hw|]. cbn [snd].
  apply (CInv_cons_host w _ p (EDir Host)); [reflexivity | reflexivity | discriminate | exact Hw].
Qed.

Lemma Pres_write_file p s : Pres (write_file p s).
Proof.
  intros w Hw. cbn [snd write_file].
  apply (CInv_cons_host w _ p (EFile Host s)); [reflexivity | reflexivity | discriminate | exact Hw].
Qed.

Lemma Pres_write_prelude_to p : Pres (write_prelude_to p).
Proof.
  intros w Hw. unfold write_prelude_to. destruct (package_prelude w); [|exact Hw].
  apply Pres_write_file, Hw.
Qed.

Lemma Pres_save_var p v : Pres (save_var p v).
Proof.
  unfold save_var. destruct v as [d|s|[|]];
    try apply Pres_write_file;
    try (apply Pres_bind; [apply Pres_write_file | intros _; apply Pres_raise]).
Qed.

Lemma CInv_remove_tree ctx w : CInv w -> CInv (remove_tree ctx w).
Proof.
  apply CInv_step; [reflexivity|]. right. intros p Hin.
  cbn in Hin. apply filter_In in Hin. apply Hin.
Qed.

Lemma Pres_docker_cli cmd : Pres (docker_cli build_outcome run_outcome cmd).
Proof.
  intros w Hw. destruct (cli_frame build_outcome run_outcome cmd w) as [Hr Hf].
  apply (CInv_step w); [exact Hr| |exact Hw].
  destruct Hh as [Ht|Hno]; [left; exact Ht|right].
  intros p Hin. destruct Hf as [Hf|Hf]; rewrite Hf in Hin; [exact Hin|].
  apply in_app_or in Hin as [Hin|Hin]; [|exact Hin].
  apply in_rev in Hin. exfalso. exact (Hno _ _ _ Hin).
Qed.

Lemma Pres_ensure_image img d : Pres (ensure_image build_outcome run_outcome img d).
Proof.
  unfold ensure_image. apply Pres_bind; [apply Pres_docker_cli|]. intros insp.
  destruct (prc insp =? 0)%Z; [apply Pres_ret|].
  destruct d as [df|].
  - apply Pres_bind; [apply Pres_docker_cli|]. intros proc.
    destruct (prc proc =? 0)%Z; [apply Pres_ret | apply Pres_raise].
  - unfold with_tempdir. apply Pres_bind; [apply Pres_mkdtemp|]. intros ctx.
    apply Pres_try_finally; [|apply CInv_remove_tree].
    apply Pres_bind; [apply Pres_write_file|]. intros _.
    apply Pres_bind; [apply Pres_docker_cli|]. intros proc.
    destruct (prc proc =? 0)%Z; [apply Pres_ret | apply Pres_raise].
Qed.

Lemma Pres_run_container img i o : Pres (run_container build_outcome run_outcome img i o).
Proof.
  unfold run_container. apply Pres_bind; [apply Pres_docker_cli|]. intros proc.
  destruct (_ && _); apply Pres_ret.
Qed.

End Cleanup.
End SandboxFacts.
Module SandboxRun.
Import Sandbox SandboxFacts.

Lemma bind_ok {A B} (m : RM A) (k : A -> RM B) w b w' :
  bind m k w = (Ok b, w') -> exists a w1, m w = (Ok a, w1) /\ k a w1 = (Ok b, w').
Proof.
  unfold bind. destruct (m w) as [[a|e] w1]; [|discriminate]. eauto.
Qed.

Lemma try_finally_inv {A} (m : RM A) c w r w' :
  try_finally m c w = (r, w') -> exists w1, m w = (r, w1) /\ w' = c w1.
Proof.
  unfold try_finally. destruct (m w) as [r1 w1]. intros [= -> <-]. eauto.
Qed.

Lemma snd_bind_ok {A B} (m : RM A) (k : A -> RM B) w a w1 :
  m w = (Ok a, w1) -> snd (bind m k w) = snd (k a w1).
Proof. intros H. unfold bind. now rewrite H. Qed.

Lemma snd_try_finally {A} (m : RM A) c w : snd (try_finally m c w) = c (snd (m w)).
Proof. unfold try_finally. now destruct (m w). Qed.

(** [DockerRuntime.run] returns the process of the run it logs, with its
    standard error replaced by its standard output when the run failed
    silently. *)
Lemma run_container_spec bo ro img i o w q w' :
  run_container bo ro img i o w = (Ok q, w') ->
  exists p, cli_log w' = cli_log w ++ [(run_cmd img i o, p)] /\
    q = (if negb (prc p =? 0)%Z && String.eqb (pstderr p) "" then
           {| prc := prc p; pstdout := pstdout p; pstderr := pstdout p |} else p).
Proof.
  unfold run_container. intros H. apply bind_ok in H as (p & w1 & H1 & H2).
  pose proof (cli_log_spec bo ro (run_cmd img i o) w) as Hl. rewrite H1 in Hl.
  exists p. split.
  - destruct (_ && _); injection H2 as <- <-; exact Hl.
  - destruct (_ && _); now injection H2 as <- <-.
Qed.

End SandboxRun.

Module SandboxClaims.
Import Sandbox SandboxFacts SandboxRun SandboxScenarios.

(** C4 (counterexample): on a non-root host, a container run that saves a
    figure into a new subdirectory of [/outputs] leaves the workspace of the
    call on disk after [execute] has returned. *)
Lemma workspace_left_by_container_subdir :
  match mkdtemp "codegen_agent_" host0 with
  | (Ok root, _) =>
      fst (execute build_ok run_saves_plot "plt.savefig('/outputs/figs/plot.png')" []
             "codegen-agent-runner:py313" host0)
        = Ok {| ExecutionResult.stdout := "saved"; ExecutionResult.stderr := "";
                ExecutionResult.returncode := 0 |} /\
      existsb (fun pe => is_prefix root (fst pe))
        (fs (snd (execute build_ok run_saves_plot "plt.savefig('/outputs/figs/plot.png')" []
                   "codegen-agent-runner:py313" host0))) = true
  | (Raise _, _) => False
  end.
Proof. vm_compute. split; reflexivity. Qed.

(** C4: [execute] removes its workspace on every exit path, returning or
    raising, whenever that removal can succeed: the host process runs as
    root, or the container creates no directory.  No entry under the
    directory [mkdtemp] created for the call is left. *)
Theorem execute_removes_workspace bo ro code variables image w :
  host_is_root w = true \/ (forall w' c p, ~ In (p, EDir Container) (snd (ro w' c))) ->
  forall root w1, mkdtemp "codegen_agent_" w = (Ok root, w1) ->
  forall pe, In pe (fs (snd (execute bo ro code variables image w))) ->
  is_prefix root (fst pe) = false.
Proof.
  intros Hh root w1 Hm pe Hin.
  unfold execute in Hin. rewrite (snd_bind_ok _ _ _ _ _ Hm) in Hin. cbv beta zeta in Hin.
  rewrite snd_try_finally in Hin.
  pose proof (mkdtemp_spec "codegen_agent_" w) as Hs. rewrite Hm in Hs.
  destruct Hs as (_ & Hf & Hfresh & (_ & _ & _ & _ & _ & Hr & _)).
  assert (Hw1 : CInv root (host_is_root w) w1).
  { split; [exact Hr|]. right. intros p Hp Hin'. rewrite Hf in Hin'.
    destruct Hin' as [E|Hin']; [discriminate|].
    rewrite forallb_forall in Hfresh. specialize (Hfresh _ Hin'). cbn in Hfresh.
    rewrite Hp in Hfresh. discriminate. }
  lazymatch type of Hin with
  | In _ (fs (rmtree_ignore_errors _ (snd (?B w1)))) =>
      assert (HB : Pres root (host_is_root w) B);
      [ | pose proof (HB w1 Hw1) as Hc; revert Hin Hc; generalize (snd (B w1)) ]
  end.
  { repeat match goal with
    | |- forall _ : unit, _ => intros _
    | |- Pres _ _ (bind _ _) => apply Pres_bind
    | |- Pres _ _ (mkdir _) => apply Pres_mkdir
    | |- Pres _ _ (write_file _ _) => apply Pres_write_file
    | |- Pres _ _ (write_prelude_to _) => apply Pres_write_prelude_to
    | |- Pres _ _ (for_each _ _) => apply Pres_for_each; intros nv; cbv beta
    | |- Pres _ _ (save_var _ _) => apply Pres_save_var
    | |- Pres _ _ (ensure_image _ _ _ _) => apply Pres_ensure_image; exact Hh
    | |- Pres _ _ (run_container _ _ _ _ _) => apply Pres_run_container; exact Hh
    | |- Pres _ _ (ret _) => apply Pres_ret
    | |- forall _ : CompletedProcess, _ => intros
    | |- Pres _ _ (fun _ => _) =>
        let w0 := fresh "w" in let H0 := fresh "H" in
        intros w0 H0; cbv beta;
        match goal with
        | |- CInv _ _ (snd (?M w0)) =>
            assert (HM : Pres root (host_is_root w) M); [| exact (HM w0 H0)]
        end
    end. }
  intros w2 Hin [Hr2 [Ht|Hn]].
  - apply (rmtree_clears root w2 (or_introl (eq_trans Hr2 Ht)) pe Hin).
  - apply (rmtree_clears root w2 (or_intror Hn) pe Hin).
Qed.

Lemma execute_removes_workspace_witness :
  (host_is_root host0 = true \/
   (forall w' c p, ~ In (p, EDir Container) (snd (run_fails_stdout w' c)))) /\
  mkdtemp "codegen_agent_" host0 = (Ok ["tmp"; "codegen_agent_0"], snd (mkdtemp "codegen_agent_" host0)) /\
  (forall pe, In pe (fs (snd (execute build_ok run_fails_stdout "print(undefined_name)" []
                               "codegen-agent-runner:py313" host0))) ->
   is_prefix ["tmp"; "codegen_agent_0"] (fst pe) = false).
Proof.
  assert (Hh : host_is_root host0 = true \/
               (forall w' c p, ~ In (p, EDir Container) (snd (run_fails_stdout w' c))))
    by (right; intros w' c p []).
  assert (Hm : mkdtemp "codegen_agent_" host0 =
               (Ok ["tmp"; "codegen_agent_0"], snd (mkdtemp "codegen_agent_" host0)))
    by (vm_compute; reflexivity).
  refine (conj Hh (conj Hm _)).
  exact (execute_removes_workspace build_ok run_fails_stdout "print(undefined_name)" []
           "codegen-agent-runner:py313" host0 Hh _ _ Hm).
Defined.

(** C7: two calls of [ensure_image] in succession run at most one build;
    none when the image is already present; and once the first call has
    returned, the second returns without building. *)
Theorem ensure_image_idempotent bo ro img d1 d2 w :
  let '(r, w2) := (ensure_image bo ro img d1 ;;; ensure_image bo ro img d2) w in
  length (builds w2) <= S (length (builds w)) /\
  (existsb (String.eqb img) (images w) = true -> builds w2 = builds w) /\
  (forall w1, ensure_image bo ro img d1 w = (Ok tt, w1) ->
     fst (ensure_image bo ro img d2 w1) = Ok tt /\
     builds (snd (ensure_image bo ro img d2 w1)) = builds w1).
Proof.
  pose proof (ensure_spec bo ro img d1 w) as S1.
  pose proof (ensure_builds_grow bo ro img d1 w) as G1.
  pose proof (ensure_ok_cli bo ro img d1 w) as C1.
  unfold bind. destruct (ensure_image bo ro img d1 w) as [[[]|e] w1] eqn:E1.
  - specialize (C1 w1 eq_refl).
    destruct S1 as (Hca1 & Hok1 & Hsame1 & _ & _). specialize (Hok1 eq_refl).
    pose proof (ensure_spec bo ro img d2 w1) as S2.
    destruct (ensure_image bo ro img d2 w1) as [r2 w2] eqn:E2.
    destruct S2 as (_ & _ & Hsame2 & Hpres2 & _).
    assert (B2 : builds w2 = builds w1) by (apply Hsame2; left; exact Hok1).
    refine (conj _ (conj _ _)).
    + rewrite B2. destruct G1 as [G1 | [b G1]]; rewrite G1; rewrite ?length_app; cbn; lia.
    + intros Hi. rewrite B2. apply Hsame1. left. exact Hi.
    + intros w1' E1'. injection E1' as <-. rewrite E2. cbn. split; [|exact B2].
      apply Hpres2; [exact Hok1 | congruence].
  - destruct S1 as (_ & _ & Hsame1 & _ & _).
    refine (conj _ (conj _ _)).
    + destruct G1 as [G1 | [b G1]]; rewrite G1; rewrite ?length_app; cbn; lia.
    + intros Hi. apply Hsame1. left. exact Hi.
    + intros w1' E1'. discriminate E1'.
Qed.

(** C8 (counterexample): with a Dockerfile path in the environment and none
    passed, the image is built from the embedded [_DOCKERFILE_TEXT] in a
    temporary context, not from that file. *)
Lemma env_dockerfile_path_not_used :
  env_get "LLM_ANALYZE_RUNNER_DOCKERFILE" "" host_env = "/opt/runner/Dockerfile" /\
  read_file "/opt/runner/Dockerfile" (fs host_env) = Some "FROM python:3.13-slim" /\
  builds (snd (ensure_image build_ok run_fails_stdout "llm-analyze-runner:py313" None host_env)) =
    [(build_cmd_temp "llm-analyze-runner:py313" ["tmp"; "llm_analyze_build_0"],
      Some _DOCKERFILE_TEXT)].
Proof. split; [|split]; vm_compute; reflexivity. Qed.

(** C8: when the image is missing, [ensure_image] builds from the
    Dockerfile passed to it if there is one ([-f] that file, its directory
    as context), and otherwise from [_DOCKERFILE_TEXT] written into a fresh
    temporary context; the environment plays no part (a failure to create
    the temporary directory raises before any build). *)
Theorem ensure_image_build_source bo ro img d w :
  existsb (String.eqb img) (images w) = false -> cli_available w = true ->
  let '(r, w') := ensure_image bo ro img d w in
  match d with
  | Some df =>
      builds w' = builds w ++ [(build_cmd_explicit img df, read_file (render df) (fs w))]
  | None =>
      (exists k, builds w' = builds w ++
         [(build_cmd_temp img ["tmp"; ("llm_analyze_build_" ++ digits k)%string],
           Some _DOCKERFILE_TEXT)]) \/
      (builds w' = builds w /\ r = Raise (OSError "FileExistsError"))
  end.
Proof.
  intros Hi Hc. pose proof (ensure_spec bo ro img d w) as S.
  destruct (ensure_image bo ro img d w) as [r w'].
  destruct S as (_ & _ & _ & _ & Hb). exact (Hb Hi Hc).
Qed.

Lemma ensure_image_build_source_witness :
  existsb (String.eqb "llm-analyze-runner:py313") (images host_env) = false /\
  cli_available host_env = true /\
  let '(r, w') := ensure_image build_ok run_fails_stdout "llm-analyze-runner:py313" None host_env in
  (exists k, builds w' = builds host_env ++
     [(build_cmd_temp "llm-analyze-runner:py313" ["tmp"; ("llm_analyze_build_" ++ digits k)%string],
       Some _DOCKERFILE_TEXT)]) \/
  (builds w' = builds host_env /\ r = Raise (OSError "FileExistsError")).
Proof.
  refine (conj eq_refl (conj eq_refl _)).
  exact (ensure_image_build_source build_ok run_fails_stdout "llm-analyze-runner:py313" None
           host_env eq_refl eq_refl).
Defined.

(** C9: the [ExecutionResult] of a returning [execute] carries the exit code
    and standard output of the container run, the last Docker call made;
    when that run exited nonzero with an empty standard error, its
    [stderr] is the run's standard output, and otherwise the run's
    standard error. *)
Theorem execute_stderr_from_stdout bo ro code variables image w er w' :
  execute bo ro code variables image w = (Ok er, w') ->
  exists img i o p,
    last (cli_log w') no_process = (run_cmd img i o, p) /\
    ExecutionResult.returncode er = prc p /\
    ExecutionResult.stdout er = pstdout p /\
    (prc p <> 0%Z -> pstderr p = "" -> ExecutionResult.stderr er = pstdout p) /\
    (prc p = 0%Z \/ pstderr p <> "" -> ExecutionResult.stderr er = pstderr p).
Proof.
  intros H. unfold execute in H. apply bind_ok in H as (root & w1 & _ & H).
  cbv beta zeta in H. apply try_finally_inv in H as (w2 & Hb & ->).
  do 7 (apply bind_ok in Hb as (? & ? & _ & Hb); cbv beta in Hb).
  apply bind_ok in Hb as (q & w8 & Hrun & Hret).
  injection Hret as <- <-.
  apply run_container_spec in Hrun as (p & Hlog & ->).
  do 3 eexists. exists p. split.
  { cbn [rmtree_ignore_errors with_fs cli_log]. rewrite Hlog. apply last_last. }
  destruct (negb (prc p =? 0)%Z && String.eqb (pstderr p) "") eqn:Ec; cbn.
  - apply andb_prop in Ec as [Ez Es]. apply negb_true_iff, Z.eqb_neq in Ez.
    apply String.eqb_eq in Es.
    repeat split; auto. intros [Hz|Hs]; [contradiction | congruence].
  - repeat split; auto. intros Hz Hs.
    rewrite <- Z.eqb_neq in Hz. rewrite Hz, Hs in Ec. discriminate.
Qed.

Lemma execute_stderr_from_stdout_witness :
  execute build_ok run_fails_stdout "print(undefined_name)" [] "codegen-agent-runner:py313" host0
    = (Ok er_fail, snd (execute build_ok run_fails_stdout "print(undefined_name)" []
                         "codegen-agent-runner:py313" host0)) /\
  exists img i o p,
    last (cli_log (snd (execute build_ok run_fails_stdout "print(undefined_name)" []
                         "codegen-agent-runner:py313" host0))) no_process = (run_cmd img i o, p) /\
    ExecutionResult.returncode er_fail = prc p /\
    ExecutionResult.stdout er_fail = pstdout p /\
    (prc p <> 0%Z -> pstderr p = "" -> ExecutionResult.stderr er_fail = pstdout p) /\
    (prc p = 0%Z \/ pstderr p <> "" -> ExecutionResult.stderr er_fail = pstderr p).
Proof.
  match goal with |- ?A /\ _ => assert (E0 : A) by (vm_compute; reflexivity) end.
  split; [exact E0|].
  exact (execute_stderr_from_stdout build_ok run_fails_stdout "print(undefined_name)" []
           "codegen-agent-runner:py313" host0 er_fail _ E0).
Defined.

End SandboxClaims.

Module LLMFacts.
Import LLMService.

Lemma descriptions_frames vars :
  descriptions vars = descriptions (filter (fun kv => is_frame (snd kv)) vars).
Proof.
  induction vars as [|[n v] rest IH]; [reflexivity|].
  cbn [filter snd descriptions].
  destruct v as [d|s|o]; cbn [is_frame describe]; rewrite <- ?IH.
  - cbn [descriptions describe]. rewrite <- IH. reflexivity.
  - cbn [descriptions describe]. rewrite <- IH. reflexivity.
  - destruct (descriptions rest); reflexivity.
Qed.

Lemma filter_none {A} (f : A -> bool) l :
  forallb (fun x => negb (f x)) l = true -> filter f l = [].
Proof.
  induction l as [|x l IH]; [reflexivity|]. cbn.
  intros H. apply andb_prop in H as [Hx Hl].
  destruct (f x); [discriminate|]. exact (IH Hl).
Qed.

End LLMFacts.

Module LLMClaims.
Import LLMService LLMFacts.

(** C10: the data description depends only on the DataFrame and Series
    entries of the mapping (every other entry is dropped, including from a
    raised error); with none of them it is exactly
    "No data variables available."; and both the generation prompt and the
    assessment prompt carry that description of the request's variables. *)
Theorem data_description_only_frames vars :
  prepare_data_description vars =
    prepare_data_description (filter (fun kv => is_frame (snd kv)) vars) /\
  (forallb (fun kv => negb (is_frame (snd kv))) vars = true ->
     prepare_data_description vars = Some "No data variables available.") /\
  (forall today req er code,
     CodeGenerationRequest.user_variables req = vars ->
     option_map data_description (generate_code_prompt today req) =
       prepare_data_description vars /\
     option_map data_description (assess_code_output_prompt today req er code) =
       prepare_data_description vars).
Proof.
  refine (conj _ (conj _ _)).
  - unfold prepare_data_description. rewrite <- descriptions_frames. reflexivity.
  - intros H. unfold prepare_data_description.
    rewrite descriptions_frames, (filter_none _ _ H). reflexivity.
  - intros today req er code <-.
    unfold generate_code_prompt, assess_code_output_prompt.
    destruct (prepare_data_description (CodeGenerationRequest.user_variables req));
      split; reflexivity.
Qed.

End LLMClaims.

Module ConsoleUIFacts.
Import LLMService ConsoleUI.

Lemma substring0_length (n : nat) (s : string) :
  String.length (substring 0 n s) = Nat.min n (String.length s).
Proof.
  revert s. induction n as [|n IH]; intros [|c s]; cbn; try reflexivity.
  now rewrite IH.
Qed.

Lemma string_length_app (a b : string) :
  String.length (a ++ b) = String.length a + String.length b.
Proof. induction a as [|c a IH]; cbn; [reflexivity | now rewrite IH]. Qed.

Lemma substring0_app (a b : string) :
  substring 0 (String.length a) (a ++ b) = a.
Proof. induction a as [|c a IH]; cbn; [now destruct b | now rewrite IH]. Qed.

Lemma substring0_all (n : nat) (s : string) :
  String.length s <= n -> substring 0 n s = s.
Proof.
  revert n. induction s as [|c s IH]; intros [|n] H; cbn in *; try reflexivity; try lia.
  rewrite IH by lia. reflexivity.
Qed.




End ConsoleUIFacts.

Module ConsoleUIClaims.
Import LLMService ConsoleUI ConsoleUIFacts.

(** [ConsoleUI.show_results] displays at most 1023 characters of standard
    output: the first 1000 characters of the output are always shown as
    they are, an output of at most 1000 characters is shown whole, and a
    longer one is cut after its 1000th character and marked as truncated. *)
Theorem show_results_stdout_truncation (s : string) :
  String.length (display_stdout s) <= 1023 /\
  substring 0 1000 (display_stdout s) = substring 0 1000 s /\
  (String.length s <= 1000 -> display_stdout s = s) /\
  (1000 < String.length s ->
     display_stdout s = (substring 0 1000 s ++ nl ++ "... (output truncated)")%string).
Proof.
  unfold display_stdout.
  destruct (Nat.ltb 1000 (String.length s)) eqn:E.
  - apply Nat.ltb_lt in E.
    assert (L : String.length (substring 0 1000 s) = 1000)
      by (rewrite substring0_length; lia).
    refine (conj _ (conj _ (conj _ (fun _ => eq_refl)))).
    + rewrite string_length_app, L. cbn. lia.
    + rewrite <- L at 1. apply substring0_app.
    + intros H. lia.
  - apply Nat.ltb_ge in E.
    refine (conj _ (conj eq_refl (conj (fun _ => eq_refl) _))); [lia|].
    intros H. lia.
Qed.


End ConsoleUIClaims.

Module LLMClientFacts.
Import LLMClient.

Lemma find_filter_other (k k' : string) (c : Cache) :
  k' <> k ->
  find (fun kv => String.eqb (fst kv) k') (filter (fun kv => negb (String.eqb (fst kv) k)) c) =
  find (fun kv => String.eqb (fst kv) k') c.
Proof.
  intros Hne. induction c as [|[a v] c IH]; cbn; [reflexivity|].
  destruct (String.eqb_spec a k) as [->|Ha]; cbn.
  - apply String.eqb_neq in Hne. rewrite String.eqb_sym, Hne. exact IH.
  - destruct (String.eqb a k'); [reflexivity | exact IH].
Qed.

Lemma get_set_same (k : string) (d v : CVal) (c : Cache) :
  cache_get k d (cache_set k v c) = v.
Proof. unfold cache_get, cache_set. cbn. rewrite String.eqb_refl. reflexivity. Qed.

Lemma get_set_other (k k' : string) (d v : CVal) (c : Cache) :
  k' <> k -> cache_get k' d (cache_set k v c) = cache_get k' d c.
Proof.
  intros Hne. unfold cache_get, cache_set. cbn.
  assert (E : String.eqb k k' = false) by (apply String.eqb_neq; congruence).
  rewrite E, find_filter_other by exact Hne. reflexivity.
Qed.

Lemma keys_differ : _tokens_key <> _calls_key.
Proof. discriminate. Qed.

Lemma increment_spec (key : string) (amount n : Z) (c : Cache) :
  _get_usage key c = CInt n ->
  _increment_usage key amount c = (inr (n + amount)%Z, cache_set key (CInt (n + amount)) c).
Proof. intros H. unfold _increment_usage. rewrite H. reflexivity. Qed.

(** One call of [create] from a calls counter [n] at most the limit. *)
Lemma create_step (m : list string) (o : option CreateResult) (c : Cache) (n : Z) :
  _get_usage _calls_key c = CInt n -> (n <= MAX_TOTAL_CALLS)%Z ->
  let '(r, c1) := create m o c in
  exists n1, _get_usage _calls_key c1 = CInt n1 /\ (n <= n1 <= MAX_TOTAL_CALLS)%Z /\
    (n1 <= n + 1)%Z /\
    (match r with inr x => negb (cached x) | inl _ => false end = true -> n1 = (n + 1)%Z).
Proof.
  intros Hc Hn. unfold create. rewrite Hc. cbn [at_limit].
  destruct (MAX_TOTAL_CALLS <=? n)%Z eqn:Hl.
  { exists n. repeat split; auto; lia. }
  apply Z.leb_gt in Hl.
  destruct (_get_usage _tokens_key c) as [t|s] eqn:Ht; cbn [at_limit].
  2:{ exists n. repeat split; auto; lia. }
  destruct (MAX_TOTAL_TOKENS <=? t)%Z.
  { exists n. repeat split; auto; lia. }
  destruct o as [res|].
  2:{ exists n. repeat split; auto; lia. }
  destruct (cached res) eqn:Hca.
  { destruct m; exists n; repeat split; auto; try lia; cbn; rewrite Hca; discriminate. }
  rewrite (increment_spec _ 1 n c Hc).
  assert (Ht' : _get_usage _tokens_key (cache_set _calls_key (CInt (n + 1)) c) = CInt t).
  { unfold _get_usage. rewrite get_set_other by exact keys_differ. exact Ht. }
  rewrite (increment_spec _ _ t _ Ht').
  assert (G : _get_usage _calls_key
                (cache_set _tokens_key (CInt (t + (prompt_tokens res + completion_tokens res * 4)))
                   (cache_set _calls_key (CInt (n + 1)) c)) = CInt (n + 1)).
  { unfold _get_usage. rewrite get_set_other by (intro H; symmetry in H; exact (keys_differ H)).
    apply get_set_same. }
  destruct m; exists (n + 1)%Z; repeat split; first [exact G | lia | intros _; reflexivity].
Qed.

End LLMClientFacts.

Module LLMClientClaims.
Import LLMClient LLMClientFacts ExtraScenarios.



(** Once the calls counter has reached [MAX_TOTAL_CALLS], or it is below
    and the tokens counter has reached [MAX_TOTAL_TOKENS], [create] raises
    [UsageLimitExceededError] without calling the model and without
    changing the cache. *)
Theorem create_refused_at_limit (m : list string) (o : option CreateResult) (c : Cache) :
  (exists n, _get_usage _calls_key c = CInt n /\ (MAX_TOTAL_CALLS <= n)%Z) \/
  ((exists n, _get_usage _calls_key c = CInt n /\ (n < MAX_TOTAL_CALLS)%Z) /\
   (exists t, _get_usage _tokens_key c = CInt t /\ (MAX_TOTAL_TOKENS <= t)%Z)) ->
  exists msg, create m o c = (inl (UsageLimitExceededError msg), c).
Proof.
  unfold create. intros [(n & Hn & Hle) | ((n & Hn & Hlt) & (t & Ht & Hle))].
  - rewrite Hn. cbn [at_limit]. apply Z.leb_le in Hle. rewrite Hle. eexists. reflexivity.
  - rewrite Hn, Ht. cbn [at_limit]. apply Z.leb_gt in Hlt. apply Z.leb_le in Hle.
    rewrite Hlt, Hle. eexists. reflexivity.
Qed.

Lemma create_refused_at_limit_witness :
  (exists msg, create ["user: hi"] None [(_calls_key, CInt 1000)] =
               (inl (UsageLimitExceededError msg), [(_calls_key, CInt 1000)])).
Proof.
  apply create_refused_at_limit. left. exists 1000%Z. split; [reflexivity | cbv; discriminate].
Defined.

(** Below both limits, [create] passes a failure of the model on and
    leaves the cache unchanged; a response served from the response cache
    leaves the counters unchanged; a response from the model adds one call
    and [prompt_tokens + 4 * completion_tokens] tokens and touches no other
    key; and a response is returned unless the message list is empty, in
    which case [IndexError] is raised after the counting. *)
Theorem create_counts_uncached (m : list string) (o : option CreateResult) (c : Cache) (n t : Z) :
  _get_usage _calls_key c = CInt n -> (n < MAX_TOTAL_CALLS)%Z ->
  _get_usage _tokens_key c = CInt t -> (t < MAX_TOTAL_TOKENS)%Z ->
  let '(res, c') := create m o c in
  match o with
  | None => res = inl ModelError /\ c' = c
  | Some r =>
      res = match m with [] => inl IndexError | _ => inr r end /\
      if cached r then c' = c
      else _get_usage _calls_key c' = CInt (n + 1) /\
           _get_usage _tokens_key c' = CInt (t + (prompt_tokens r + completion_tokens r * 4)) /\
           (forall k d, k <> _calls_key -> k <> _tokens_key -> cache_get k d c' = cache_get k d c)
  end.
Proof.
  intros Hn Hln Ht Hlt. unfold create. rewrite Hn, Ht. cbn [at_limit].
  apply Z.leb_gt in Hln. apply Z.leb_gt in Hlt. rewrite Hln, Hlt.
  destruct o as [r|]; [|split; reflexivity].
  destruct (cached r) eqn:Hc.
  - destruct m; split; reflexivity.
  - rewrite (increment_spec _ 1 n c Hn).
    assert (Ht' : _get_usage _tokens_key (cache_set _calls_key (CInt (n + 1)) c) = CInt t).
    { unfold _get_usage. rewrite get_set_other by exact keys_differ. exact Ht. }
    rewrite (increment_spec _ _ t _ Ht').
    assert (R : _get_usage _calls_key
                  (cache_set _tokens_key (CInt (t + (prompt_tokens r + completion_tokens r * 4)))
                     (cache_set _calls_key (CInt (n + 1)) c)) = CInt (n + 1)).
    { unfold _get_usage. rewrite get_set_other by (intro H; symmetry in H; exact (keys_differ H)).
      apply get_set_same. }
    assert (O : forall k d, k <> _calls_key -> k <> _tokens_key ->
                cache_get k d (cache_set _tokens_key
                   (CInt (t + (prompt_tokens r + completion_tokens r * 4)))
                   (cache_set _calls_key (CInt (n + 1)) c)) = cache_get k d c).
    { intros k d H1 H2. rewrite !get_set_other by assumption. reflexivity. }
    destruct m; (split; [reflexivity | refine (conj R (conj (get_set_same _ _ _ _) O))]).
Qed.

Lemma create_counts_uncached_witness :
  (_get_usage _calls_key [] = CInt 0 /\ (0 < MAX_TOTAL_CALLS)%Z /\
   _get_usage _tokens_key [] = CInt 0 /\ (0 < MAX_TOTAL_TOKENS)%Z) /\
  let '(res, c') := create ["user: hi"] (Some fresh_response) [] in
  res = inr fresh_response /\
  _get_usage _calls_key c' = CInt (0 + 1) /\
  _get_usage _tokens_key c' = CInt (0 + (10 + 2 * 4)) /\
  (forall k d, k <> _calls_key -> k <> _tokens_key -> cache_get k d c' = cache_get k d []).
Proof.
  split; [repeat split; reflexivity|].
  exact (create_counts_uncached ["user: hi"] (Some fresh_response) [] 0 0
           eq_refl eq_refl eq_refl eq_refl).
Defined.

(** Over any sequence of [create] calls on a cache whose calls counter
    starts at [n0 <= MAX_TOTAL_CALLS], the counter never exceeds
    [MAX_TOTAL_CALLS], and the number of responses obtained from the model
    (not from the response cache) is at most the counter's increase, so at
    most [MAX_TOTAL_CALLS - n0]. *)
Theorem create_all_call_budget (calls : list (list string * option CreateResult)) (c : Cache) (n0 : Z) :
  _get_usage _calls_key c = CInt n0 -> (n0 <= MAX_TOTAL_CALLS)%Z ->
  let '(rs, c') := create_all calls c in
  exists n', _get_usage _calls_key c' = CInt n' /\ (n0 <= n' <= MAX_TOTAL_CALLS)%Z /\
    (Z.of_nat (uncached_results rs) <= n' - n0)%Z.
Proof.
  revert c n0. induction calls as [|[m o] rest IH]; intros c n0 Hc Hn; cbn [create_all].
  - exists n0. cbn. repeat split; auto; lia.
  - pose proof (create_step m o c n0 Hc Hn) as S.
    destruct (create m o c) as [r c1].
    destruct S as (n1 & H1 & Hb1 & Hle1 & Hinc).
    specialize (IH c1 n1 H1 (proj2 Hb1)).
    destruct (create_all rest c1) as [rs c2].
    destruct IH as (n' & H' & Hb' & Hcount).
    exists n'. refine (conj H' (conj _ _)); [lia|].
    unfold uncached_results in *. cbn [filter].
    destruct (match r with inr x => negb (cached x) | inl _ => false end) eqn:E.
    + specialize (Hinc eq_refl). cbn [List.length]. rewrite Nat2Z.inj_succ. lia.
    + lia.
Qed.

Lemma create_all_call_budget_witness :
  (_get_usage _calls_key [] = CInt 0 /\ (0 <= MAX_TOTAL_CALLS)%Z) /\
  let '(rs, c') := create_all [(["user: hi"], Some fresh_response);
                               (["user: hi"], Some fresh_response)] [] in
  exists n', _get_usage _calls_key c' = CInt n' /\ (0 <= n' <= MAX_TOTAL_CALLS)%Z /\
    (Z.of_nat (uncached_results rs) <= n' - 0)%Z.
Proof.
  split; [split; [reflexivity | cbv; discriminate]|].
  exact (create_all_call_budget [(["user: hi"], Some fresh_response);
                                 (["user: hi"], Some fresh_response)] [] 0 eq_refl
           ltac:(cbv; discriminate)).
Defined.

(** After [reset_usage] both counters are 0, [llm_usage_from] holds the
    reset time, and the next [create] is never refused by the usage limits
    (nor fails on a counter). *)
Theorem reset_usage_reopens (now : string) (c : Cache) (m : list string) (o : option CreateResult) :
  _get_usage _calls_key (reset_usage now c) = CInt 0 /\
  _get_usage _tokens_key (reset_usage now c) = CInt 0 /\
  cache_get "llm_usage_from" (CStr "unknown") (reset_usage now c) = CStr now /\
  match fst (create m o (reset_usage now c)) with
  | inl (UsageLimitExceededError _) | inl TypeError => False
  | _ => True
  end.
Proof.
  assert (Hc : _get_usage _calls_key (reset_usage now c) = CInt 0).
  { unfold _get_usage, reset_usage. rewrite get_set_other by discriminate. apply get_set_same. }
  assert (Ht : _get_usage _tokens_key (reset_usage now c) = CInt 0).
  { unfold _get_usage, reset_usage. apply get_set_same. }
  refine (conj Hc (conj Ht (conj _ _))).
  - unfold reset_usage. rewrite !get_set_other by discriminate. apply get_set_same.
  - pose proof (create_counts_uncached m o (reset_usage now c) 0 0 Hc eq_refl Ht eq_refl) as H.
    destruct (create m o (reset_usage now c)) as [res c']. cbn [fst].
    destruct o as [r|].
    + destruct H as [-> _]. destruct m; exact I.
    + destruct H as [-> _]. exact I.
Qed.

End LLMClientClaims.

Module MagicAgentFacts.
Import MagicAgent.

Lemma dict_get_cons {V} (k k0 : string) (v0 : V) d :
  dict_get k ((k0, v0) :: d) = if String.eqb k0 k then Some v0 else dict_get k d.
Proof. unfold dict_get. cbn. destruct (String.eqb k0 k); reflexivity. Qed.

Lemma dict_get_set {V} (k k' : string) (v : V) d :
  dict_get k (dict_set k' v d) = if String.eqb k' k then Some v else dict_get k d.
Proof.
  induction d as [|[k0 v0] d IH]; cbn [dict_set].
  - rewrite dict_get_cons. reflexivity.
  - destruct (String.eqb_spec k0 k') as [->|Hne].
    + rewrite !dict_get_cons. destruct (String.eqb k' k); reflexivity.
    + rewrite !dict_get_cons, IH.
      destruct (String.eqb_spec k0 k) as [->|]; [|reflexivity].
      destruct (String.eqb_spec k' k) as [->|]; [congruence | reflexivity].
Qed.

Lemma dict_set_keys {V} (k : string) (v : V) d :
  forall x, In x (map fst (dict_set k v d)) <-> x = k \/ In x (map fst d).
Proof.
  induction d as [|[k0 v0] d IH]; intros x; cbn [dict_set map fst].
  - cbn. split; intros [E|E]; auto.
  - destruct (String.eqb_spec k0 k) as [->|Hne]; cbn [map fst In].
    + split; [intros [E|E]; auto | intros [E|[E|E]]; auto].
    + rewrite IH. tauto.
Qed.

Lemma dict_set_nodup {V} (k : string) (v : V) d :
  NoDup (map fst d) -> NoDup (map fst (dict_set k v d)).
Proof.
  induction d as [|[k0 v0] d IH]; intros H; cbn [dict_set map fst].
  - constructor; [tauto | constructor].
  - inversion H as [|? ? Hn Hd]; subst.
    destruct (String.eqb_spec k0 k) as [->|Hne]; cbn [map fst].
    + constructor; assumption.
    + constructor; [|exact (IH Hd)]. rewrite dict_set_keys. intros [E|E]; [congruence | tauto].
Qed.

Lemma assign_all_get {V} (k : string) (l : list (string * V)) (out : list (string * V)) :
  dict_get k (fold_left assign l out) =
  fold_left (fun acc kv => if String.eqb (fst kv) k then Some (snd kv) else acc) l (dict_get k out).
Proof.
  revert out. induction l as [|[a v] l IH]; intros out; cbn; [reflexivity|].
  rewrite IH. unfold assign. cbn. rewrite dict_get_set. reflexivity.
Qed.

Lemma assign_all_nodup {V} (l : list (string * V)) (out : list (string * V)) :
  NoDup (map fst out) -> NoDup (map fst (fold_left assign l out)).
Proof.
  revert out. induction l as [|kv l IH]; intros out H; cbn; [exact H|].
  apply IH. apply dict_set_nodup. exact H.
Qed.

Lemma collect_as_assignments (user_ns : option (list (string * NsValue))) (line : string) :
  _collect_user_vars user_ns line =
  fold_left assign (contributions (match user_ns with Some d => d | None => [] end)
                     (py_split (py_strip line))) [].
Proof.
  unfold _collect_user_vars.
  generalize (@nil (string * PyValue)).
  set (ns := match user_ns with Some d => d | None => [] end).
  induction (py_split (py_strip line)) as [|n names IH]; intros out; [reflexivity|].
  cbn [fold_left]. unfold contributions. cbn [flat_map]. rewrite fold_left_app.
  fold (contributions ns names). rewrite <- IH. f_equal.
  destruct (dict_get n ns) as [[d|v]|]; [|reflexivity|reflexivity].
  clear IH. revert out. induction d as [|kv d IHd]; intros out; [reflexivity|].
  cbn [fold_left map]. rewrite IHd. reflexivity.
Qed.

End MagicAgentFacts.

Module MagicAgentClaims.
Import MagicAgent MagicAgentFacts.

(** [NotebookAgent._collect_user_vars] gives every key the value of the
    last assignment to it, in the order of the names on the magic line:
    a name missing from the namespace contributes nothing, a dict [n]
    contributes its entries under [n_key], any other value under its own
    name; later assignments overwrite earlier ones (for instance a listed
    [cfg_a] overwrites the [a] entry of a listed dict [cfg]); and the
    result has no duplicate keys. *)
Theorem collect_user_vars_last_wins (user_ns : option (list (string * NsValue))) (line k : string) :
  dict_get k (_collect_user_vars user_ns line) =
    last_assigned k (contributions (match user_ns with Some d => d | None => [] end)
                       (py_split (py_strip line))) /\
  NoDup (map fst (_collect_user_vars user_ns line)).
Proof.
  rewrite collect_as_assignments. split.
  - rewrite assign_all_get. reflexivity.
  - apply assign_all_nodup. constructor.
Qed.

End MagicAgentClaims.

Module LLMServiceFacts.
Import LLMService.

Lemma descriptions_none_iff (vars : Namespace) :
  descriptions vars = None <-> exists n v, In (n, v) vars /\ describe n v = None.
Proof.
  induction vars as [|[n v] rest [IH1 IH2]]; cbn.
  - split; [discriminate | intros (? & ? & [] & _)].
  - destruct (describe n v) as [[d|]|] eqn:Hd;
      [| | split; [intros _; exists n, v; auto | reflexivity]].
    all: destruct (descriptions rest) eqn:Hr.
    all: split; intros H; try discriminate; try reflexivity.
    all: first
      [ destruct H as (n' & v' & [E|Hin] & H');
        [ injection E as <- <-; congruence
        | discriminate (IH2 (ex_intro _ n' (ex_intro _ v' (conj Hin H')))) ]
      | destruct (IH1 eq_refl) as (n' & v' & ? & ?); exists n', v'; auto ].
Qed.

Lemma describe_none_iff (n : string) (v : PyValue) :
  describe n v = None <->
  (exists d, v = VDataFrame d /\ df_repr_ok d = false) \/
  (exists s, v = VSeries s /\ se_repr_ok s = false).
Proof.
  split.
  - destruct v as [d|s|p]; cbn; intros H.
    + left. exists d. destruct (df_repr_ok d); [discriminate | auto].
    + right. exists s. destruct (se_repr_ok s); [discriminate | auto].
    + discriminate.
  - intros [(d & -> & H) | (s & -> & H)]; cbn; rewrite H; reflexivity.
Qed.

End LLMServiceFacts.

Module LLMServiceClaims.
Import LLMService LLMServiceFacts.

(** [prepare_data_description] raises its [RuntimeError] exactly when some
    DataFrame or Series of the mapping cannot be rendered, wherever it
    stands in the mapping; values of other types never make it raise. *)
Theorem prepare_data_description_raises_iff (vars : Namespace) :
  prepare_data_description vars = None <->
  exists n, (exists d, In (n, VDataFrame d) vars /\ df_repr_ok d = false) \/
            (exists s, In (n, VSeries s) vars /\ se_repr_ok s = false).
Proof.
  assert (E : prepare_data_description vars = None <-> descriptions vars = None).
  { unfold prepare_data_description.
    destruct (descriptions vars) as [[|d ds]|]; split; congruence. }
  rewrite E, descriptions_none_iff. split.
  - intros (n & v & Hin & Hd). apply describe_none_iff in Hd.
    exists n. destruct Hd as [(d & -> & H) | (s & -> & H)]; eauto.
  - intros (n & [(d & Hin & H) | (s & Hin & H)]); eexists n, _; split; try exact Hin;
      apply describe_none_iff; eauto.
Qed.

End LLMServiceClaims.

Module LLMConversationFacts.
Import LLMService LLMConversation.



End LLMConversationFacts.

Module LLMConversationClaims.
Import LLMService LLMConversation LLMConversationFacts.


End LLMConversationClaims.

Module WorkflowSaveFacts.
Import Workflow.

Lemma saves_app (t1 t2 : list Event) : saves (t1 ++ t2) = saves t1 ++ saves t2.
Proof. apply flat_map_app. Qed.

Ltac monad := unfold bind, get, modify, emit, ret, raise, call_execute, call_assess; cbn.

Section LoopSaves.

Variable sandbox_execute : string -> Namespace -> option ExecutionResult.t.
Variable assess_code_output : CodeGenerationRequest.t -> ExecutionResult.t -> string ->
  list HistoryItem.t -> option CodeAssessmentResult.t.

(** From a trace without a save, the loop either returns after a success,
    with the save of the code it has just executed and judged a success
    closing the trace, or ends by any other path without a save. *)
Lemma loop_saves : forall fuel w tr, saves tr = [] ->
  let '(r, (w', tr')) := loop sandbox_execute assess_code_output fuel (w, tr) in
  (r = Ok ReturnAfterSuccess /\
   exists tr0 x a, tr' = tr0 ++ [EvExecute (current_code w') x; EvAssess a;
                                 EvSave (current_code w')] /\
                   CodeAssessmentResult.success a = true /\ saves tr0 = []) \/
  (r <> Ok ReturnAfterSuccess /\ saves tr' = []).
Proof.
  induction fuel as [|fuel IH]; intros w tr H.
  - right. split; [discriminate | exact H].
  - cbn [loop]. monad.
    destruct (sandbox_execute (current_code w) (CodeGenerationRequest.user_variables (request w)))
      as [x|]; monad; [|right; split; [discriminate | exact H]].
    destruct (assess_code_output (request w) x (current_code w) (history w)) as [a|]; monad.
    2:{ right. split; [discriminate|]. rewrite saves_app, H. reflexivity. }
    assert (H1 : saves ((tr ++ [EvExecute (current_code w) x]) ++ [EvAssess a]) = []).
    { rewrite !saves_app, H. reflexivity. }
    destruct (CodeAssessmentResult.success a) eqn:Hs.
    + left. split; [reflexivity|]. exists tr, x, a.
      cbn [fst snd]. rewrite <- !app_assoc. split; [reflexivity | split; [exact Hs | exact H]].
    + destruct (max_code_generation w <=? code_generation_count w + 1)%Z.
      * right. split; [discriminate | exact H1].
      * destruct (CodeAssessmentResult.should_retry a);
          [destruct (truthy_str (CodeAssessmentResult.code a))|]; apply IH; exact H1.
Qed.

End LoopSaves.

End WorkflowSaveFacts.

Module WorkflowRunClaims.
Import Workflow WorkflowFacts WorkflowSaveFacts.

Section RunExtra.

Variable generate_code : CodeGenerationRequest.t -> option CodeGenerationResult.t.
Variable sandbox_execute : string -> Namespace -> option ExecutionResult.t.
Variable assess_code_output : CodeGenerationRequest.t -> ExecutionResult.t -> string ->
  list HistoryItem.t -> option CodeAssessmentResult.t.
Variable empty_code_result : CodeGenerationResult.t.
Variable empty_execution_result : ExecutionResult.t.
Variable empty_assessment : CodeAssessmentResult.t.

Local Abbreviation run_of := (agent_run generate_code sandbox_execute assess_code_output
  empty_code_result empty_execution_result empty_assessment).

(** [save_to_notebook] is called at most once in a run, and only by the
    return after a success: then it is the last call, with the code that
    has just been executed and judged a success, which is also the
    workflow's final [current_code]; a run that raises, spends its budget
    or does not end saves nothing. *)
Theorem save_only_after_success (q : CodeGenerationRequest.t) (N : Z) :
  let '(r, (w, tr)) := run_of q N in
  (r = Ok ReturnAfterSuccess /\
   exists tr0 x a, tr = tr0 ++ [EvExecute (current_code w) x; EvAssess a;
                                EvSave (current_code w)] /\
                   CodeAssessmentResult.success a = true /\ saves tr0 = []) \/
  (r <> Ok ReturnAfterSuccess /\ saves tr = []).
Proof.
  destruct (agent_run_cases generate_code sandbox_execute assess_code_output
              empty_code_result empty_execution_result empty_assessment q N)
    as [[_ ->] | (g & _ & _ & ->)].
  - right. split; [discriminate | reflexivity].
  - apply loop_saves. reflexivity.
Qed.

(** With a budget [max_code_generation <= 1] (0 and negative budgets
    included) and collaborators that return, the run generates once,
    executes and assesses the generated code exactly once, and returns:
    after a success, saving that code, or else through the budget. *)
Theorem small_budget_single_attempt (q : CodeGenerationRequest.t) (N : Z) :
  (N <= 1)%Z ->
  (forall q', generate_code q' <> None) ->
  (forall c vs, sandbox_execute c vs <> None) ->
  (forall q' r c h, assess_code_output q' r c h <> None) ->
  let '(r, (w, tr)) := run_of q N in
  exists g x a,
    tr = [EvGenerate g; EvExecute (CodeGenerationResult.code g) x; EvAssess a] ++
         (if CodeAssessmentResult.success a then [EvSave (CodeGenerationResult.code g)] else []) /\
    r = Ok (if CodeAssessmentResult.success a then ReturnAfterSuccess else ReturnAfterBudget).
Proof.
  intros HN Hg He Ha.
  destruct (agent_run_cases generate_code sandbox_execute assess_code_output
              empty_code_result empty_execution_result empty_assessment q N)
    as [[Hg0 _] | (g & _ & _ & ->)]; [exfalso; exact (Hg q Hg0)|].
  cbn [loop]. monad.
  destruct (sandbox_execute (CodeGenerationResult.code g) (CodeGenerationRequest.user_variables q))
    as [x|] eqn:Hx; [|exfalso; exact (He _ _ Hx)].
  monad.
  match goal with |- context [assess_code_output ?a ?b ?c ?d] =>
    destruct (assess_code_output a b c d) as [a0|] eqn:Ha0;
    [|exfalso; exact (Ha _ _ _ _ Ha0)] end.
  monad. destruct (CodeAssessmentResult.success a0) eqn:Hs.
  - exists g, x, a0. rewrite Hs. split; reflexivity.
  - replace (N <=? 1)%Z with true by (symmetry; apply Z.leb_le; lia).
    exists g, x, a0. rewrite Hs. split; reflexivity.
Qed.

End RunExtra.

End WorkflowRunClaims.

Module WorkflowRunWitnesses.
Import Workflow WorkflowScenarios WorkflowRunClaims.

Lemma small_budget_single_attempt_witness :
  (0 <= 1)%Z /\
  (forall q', gen_hello q' <> None) /\
  (forall c vs, exec_hello c vs <> None) /\
  (forall q' r c h, assess_const (verdict false false None) q' r c h <> None) /\
  (let '(r, (w, tr)) := agent_run gen_hello exec_hello (assess_const (verdict false false None))
                          empty_gen empty_exec empty_verdict req 0 in
   exists g x a,
     tr = [EvGenerate g; EvExecute (CodeGenerationResult.code g) x; EvAssess a] ++
          (if CodeAssessmentResult.success a then [EvSave (CodeGenerationResult.code g)] else []) /\
     r = Ok (if CodeAssessmentResult.success a then ReturnAfterSuccess else ReturnAfterBudget)).
Proof.
  assert (Hg : forall q', gen_hello q' <> None) by discriminate.
  assert (He : forall c vs, exec_hello c vs <> None) by discriminate.
  assert (Ha : forall q' r c h, assess_const (verdict false false None) q' r c h <> None)
    by discriminate.
  split; [lia|]. split; [exact Hg|]. split; [exact He|]. split; [exact Ha|].
  exact (small_budget_single_attempt gen_hello exec_hello (assess_const (verdict false false None))
           empty_gen empty_exec empty_verdict req 0 ltac:(lia) Hg He Ha).
Defined.

End WorkflowRunWitnesses.
Module SandboxStepFacts.
Import Sandbox SandboxFacts SandboxRun.

Lemma snd_bind {A B} (m : RM A) (k : A -> RM B) w :
  snd (bind m k w) = match m w with (Ok a, w1) => snd (k a w1) | (Raise _, w1) => w1 end.
Proof. unfold bind. destruct (m w) as [[a|e] w1]; reflexivity. Qed.

Lemma bind_ok_eq {A B} (m : RM A) (k : A -> RM B) w a w1 :
  m w = (Ok a, w1) -> bind m k w = k a w1.
Proof. intros H. unfold bind. now rewrite H. Qed.

Lemma is_prefix_refl (p : path) : is_prefix p p = true.
Proof. induction p as [|x p IH]; cbn; [reflexivity|]. now rewrite String.eqb_refl, IH. Qed.

Lemma is_prefix_app (p q : path) : is_prefix p (p ++ q) = true.
Proof. induction p as [|x p IH]; cbn; [reflexivity|]. now rewrite String.eqb_refl, IH. Qed.

Lemma filter_fresh (c : path) (f : list (path * Entry)) :
  forallb (fun pe => negb (is_prefix c (fst pe))) f = true ->
  filter (fun pe => negb (is_prefix c (fst pe))) f = f.
Proof.
  induction f as [|pe f IH]; cbn; [reflexivity|].
  intros H. apply andb_prop in H as [H1 H2]. rewrite H1, IH by exact H2. reflexivity.
Qed.

(** A Docker build call leaves the filesystem as it is. *)
Lemma cli_build_fs bo ro img rest w :
  fs (snd (docker_cli bo ro ("docker" :: "build" :: "-t" :: img :: rest) w)) = fs w.
Proof.
  unfold docker_cli. destruct (cli_available w); cbn [negb]; [|reflexivity].
  destruct (bo w _) as [[rc out] err]. cbn. destruct (rc =? 0)%Z; reflexivity.
Qed.

(** A Docker build call that exits nonzero adds no image, and logs
    itself with its outcome. *)
Lemma cli_build_fails bo ro img rest w :
  cli_available w = true -> (fst (fst (bo w ("docker" :: "build" :: "-t" :: img :: rest))) <> 0)%Z ->
  exists p, docker_cli bo ro ("docker" :: "build" :: "-t" :: img :: rest) w = (Ok p, snd (docker_cli bo ro ("docker" :: "build" :: "-t" :: img :: rest) w)) /\
    (prc p <> 0)%Z /\
    images (snd (docker_cli bo ro ("docker" :: "build" :: "-t" :: img :: rest) w)) = images w /\
    cli_log (snd (docker_cli bo ro ("docker" :: "build" :: "-t" :: img :: rest) w)) =
      cli_log w ++ [("docker" :: "build" :: "-t" :: img :: rest, p)] /\
    cli_available (snd (docker_cli bo ro ("docker" :: "build" :: "-t" :: img :: rest) w)) = cli_available w.
Proof.
  intros Hc Hrc. unfold docker_cli. rewrite Hc. cbn [negb].
  destruct (bo w _) as [[rc out] err] eqn:Hb. cbn in Hrc. cbn.
  apply Z.eqb_neq in Hrc as Hrc'. rewrite Hrc'. cbn.
  eexists. split; [reflexivity|]. cbn. auto.
Qed.

(** A Docker run call leaves the images of the daemon alone. *)
Lemma cli_run_images bo ro rest w :
  images (snd (docker_cli bo ro ("docker" :: "run" :: rest) w)) = images w.
Proof.
  unfold docker_cli. destruct (cli_available w); cbn [negb]; [|reflexivity].
  destruct (ro w _) as [[[rc out] err] wr]. reflexivity.
Qed.

(** A Docker run call only adds entries to the filesystem. *)
Lemma cli_keeps_fs bo ro cmd w : incl (fs w) (fs (snd (docker_cli bo ro cmd w))).
Proof.
  destruct (cli_frame bo ro cmd w) as [_ [E|E]]; rewrite E; [apply incl_refl|].
  apply incl_appr, incl_refl.
Qed.

(** A relation between the world before and after a computation, kept by
    every step. *)
Section Preserve.
Variable R : World -> World -> Prop.
Hypothesis R_refl : forall w, R w w.
Hypothesis R_trans : forall a b c, R a b -> R b c -> R a c.

Definition PresR {A} (m : RM A) : Prop := forall w, R w (snd (m w)).

Lemma PresR_bind {A B} (m : RM A) (k : A -> RM B) :
  PresR m -> (forall a, PresR (k a)) -> PresR (bind m k).
Proof.
  intros Hm Hk w. unfold bind. specialize (Hm w).
  destruct (m w) as [[a|e] w1]; cbn in *; [|exact Hm]. eapply R_trans; [exact Hm | apply Hk].
Qed.

Lemma PresR_ret {A} (a : A) : PresR (ret a).
Proof. intros w. apply R_refl. Qed.

Lemma PresR_raise {A} e : PresR (@raise A e).
Proof. intros w. apply R_refl. Qed.

Lemma PresR_for_each {A} (l : list A) f : (forall x, PresR (f x)) -> PresR (for_each l f).
Proof.
  intros Hf. induction l as [|x l IH]; cbn [for_each].
  - apply PresR_ret.
  - apply PresR_bind; [apply Hf | intros _; exact IH].
Qed.

Lemma PresR_dep {A} (f : World -> RM A) : (forall w0, PresR (f w0)) -> PresR (fun w => f w w).
Proof. intros Hf w. exact (Hf w w). Qed.

End Preserve.

Lemma Frame_mkdir p : PresR Frame (mkdir p).
Proof. intros w. unfold mkdir. destruct (existsb _ _); [apply Frame_refl | apply Frame_with_fs]. Qed.

Lemma Frame_write_file p s : PresR Frame (write_file p s).
Proof. intros w. apply Frame_with_fs. Qed.

Lemma Frame_write_prelude_to p : PresR Frame (write_prelude_to p).
Proof.
  intros w. unfold write_prelude_to. destruct (package_prelude w); [apply Frame_with_fs | apply Frame_refl].
Qed.

Lemma Frame_save_var p v : PresR Frame (save_var p v).
Proof.
  intros w. destruct v as [d|s|[|]]; apply Frame_with_fs.
Qed.



Lemma runtime_image_env image w w' :
  env w' = env w -> runtime_image image w' = runtime_image image w.
Proof. intros E. unfold runtime_image, env_get. now rewrite E. Qed.


(** Filesystem entries a computation never removes. *)
Definition Keeps (w w' : World) : Prop := incl (fs w) (fs w').

Lemma Keeps_refl w : Keeps w w.
Proof. apply incl_refl. Qed.

Lemma Keeps_trans a b c : Keeps a b -> Keeps b c -> Keeps a c.
Proof. unfold Keeps. apply incl_tran. Qed.

Lemma Keeps_cons w w' e : fs w' = e :: fs w -> Keeps w w'.
Proof. intros E. unfold Keeps. rewrite E. apply incl_tl, incl_refl. Qed.

Lemma Keeps_mkdir p : PresR Keeps (mkdir p).
Proof.
  intros w. unfold mkdir. destruct (existsb _ _); [apply Keeps_refl|].
  apply (Keeps_cons _ _ (p, EDir Host)). reflexivity.
Qed.

Lemma Keeps_write_file p s : PresR Keeps (write_file p s).
Proof. intros w. apply (Keeps_cons _ _ (p, EFile Host s)). reflexivity. Qed.

Lemma Keeps_write_prelude_to p : PresR Keeps (write_prelude_to p).
Proof.
  intros w. unfold write_prelude_to. destruct (package_prelude w); [apply Keeps_write_file | apply Keeps_refl].
Qed.

Lemma Keeps_save_var p v : PresR Keeps (save_var p v).
Proof.
  intros w. destruct v as [d|s|[|]]; eapply Keeps_cons; reflexivity.
Qed.

Lemma Keeps_docker_cli bo ro cmd : PresR Keeps (docker_cli bo ro cmd).
Proof. intros w. apply cli_keeps_fs. Qed.

Lemma Keeps_run_container bo ro img i o : PresR Keeps (run_container bo ro img i o).
Proof.
  unfold run_container. apply (PresR_bind Keeps Keeps_trans); [apply Keeps_docker_cli|].
  intros proc. destruct (_ && _); apply PresR_ret, Keeps_refl.
Qed.

End SandboxStepFacts.

Module SandboxEnsureFacts.
Import Sandbox SandboxFacts SandboxRun SandboxStepFacts.

Section Ensure.
Variable bo : World -> list string -> Z * string * string.
Variable ro : World -> list string -> Z * string * string * list (path * Entry).

(** The check of [ensure_image] after a build command. *)
Lemma snd_check_build cmd w :
  snd ((proc <- docker_cli bo ro cmd ;;
        if (prc proc =? 0)%Z then ret tt
        else raise (BuildFailure cmd (prc proc) (pstdout proc) (pstderr proc))) w) =
  snd (docker_cli bo ro cmd w).
Proof.
  unfold bind. destruct (docker_cli bo ro cmd w) as [[p|e] w1]; [|reflexivity].
  destruct (prc p =? 0)%Z; reflexivity.
Qed.

Lemma ensure_image_fs img d w :
  fs (snd (ensure_image bo ro img d w)) = fs w.
Proof.
  unfold ensure_image.
  destruct (cli_available w) eqn:Hc.
  2: { unfold bind. rewrite cli_unavailable by exact Hc. reflexivity. }
  rewrite (bind_ok_eq _ _ _ _ _ (cli_inspect bo ro img w Hc)).
  match goal with |- context [with_log ?l w] => set (w1 := with_log l w) end.
  assert (F1 : fs w1 = fs w) by reflexivity. clearbody w1.
  cbn [prc]. destruct (existsb (String.eqb img) (images w)); cbn [Z.eqb].
  - exact F1.
  - destruct d as [df|].
    + cbv zeta. rewrite snd_check_build. unfold build_cmd_explicit.
      rewrite cli_build_fs. exact F1.
    + unfold with_tempdir.
      pose proof (mkdtemp_spec "llm_analyze_build_" w1) as Hm.
      destruct (mkdtemp "llm_analyze_build_" w1) as [[ctx|e] w2] eqn:E.
      * rewrite (bind_ok_eq _ _ _ _ _ E), snd_try_finally.
        destruct Hm as (_ & Hfs & Hfresh & _).
        rewrite (bind_ok_eq (write_file _ _) _ w2 tt _ eq_refl). cbv zeta.
        rewrite snd_check_build. unfold build_cmd_temp.
        unfold remove_tree. cbn [fs with_fs]. rewrite cli_build_fs.
        cbn [fs with_fs write_file snd filter fst]. rewrite Hfs.
        cbn [filter fst]. rewrite is_prefix_app, is_prefix_refl. cbn [negb].
        rewrite filter_fresh by exact Hfresh. exact F1.
      * unfold bind. rewrite E. destruct Hm as (_ & Hf & _). cbn [snd]. rewrite Hf. exact F1.
Qed.

End Ensure.

End SandboxEnsureFacts.

Module SandboxExtraClaims.
Import Sandbox SandboxFacts SandboxRun SandboxStepFacts SandboxEnsureFacts.

(** [ensure_image] leaves the host filesystem exactly as it found it, on
    every path: the temporary build context it may create, with the
    Dockerfile written into it, is removed again whether the build
    succeeds, fails or the Docker CLI is missing, and nothing else is
    touched. *)
Theorem ensure_image_leaves_fs bo ro img d w :
  fs (snd (ensure_image bo ro img d w)) = fs w.
Proof. apply ensure_image_fs. Qed.

(** When every build fails, [ensure_image] never adds an image: it
    returns exactly when the image was already there (and the Docker CLI
    can be launched), and otherwise raises: [OSError] for a missing CLI or
    temporary directory, or the build failure, carrying the command, the
    nonzero exit code and both outputs of the failed build, which is the
    last Docker call logged. *)
Theorem ensure_image_failed_build bo ro img d w :
  (forall w0 c, fst (fst (bo w0 c)) <> 0%Z) ->
  let '(r, w') := ensure_image bo ro img d w in
  images w' = images w /\
  (r = Ok tt <-> cli_available w = true /\ existsb (String.eqb img) (images w) = true) /\
  (forall e, r = Raise e ->
     e = OSError "docker" \/ e = OSError "FileExistsError" \/
     exists cmd rc out err, e = BuildFailure cmd rc out err /\ rc <> 0%Z /\
       exists l, cli_log w' = l ++ [(cmd, {| prc := rc; pstdout := out; pstderr := err |})]).
Proof.
  intros Hb. unfold ensure_image.
  destruct (cli_available w) eqn:Hc.
  2: { unfold bind. rewrite cli_unavailable by exact Hc. cbn.
       split; [reflexivity|]. split; [split; [discriminate | intros [? _]; discriminate]|].
       intros e [= <-]. left. reflexivity. }
  rewrite (bind_ok_eq _ _ _ _ _ (cli_inspect bo ro img w Hc)).
  match goal with |- context [with_log ?l w] => set (w1 := with_log l w) end.
  assert (I1 : images w1 = images w) by reflexivity.
  assert (C1 : cli_available w1 = true) by exact Hc. clearbody w1.
  cbn [prc]. destruct (existsb (String.eqb img) (images w)) eqn:Hi; cbn [Z.eqb].
  { cbn. split; [exact I1|]. split; [tauto|]. intros e He. discriminate He. }
  destruct d as [df|].
  - cbv zeta. unfold build_cmd_explicit.
    destruct (cli_build_fails bo ro img ["-f"; render df; render (removelast df)] w1 C1 (Hb _ _)) as (p & Ep & Hp & Himg & Hlog & _).
    rewrite (bind_ok_eq _ _ _ _ _ Ep). apply Z.eqb_neq in Hp as Hp'. rewrite Hp'.
    unfold raise. split; [congruence|]. split.
    + split; [discriminate | intros [_ H]; discriminate H].
    + intros e [= <-]. right. right. do 4 eexists. split; [reflexivity|]. split; [exact Hp|].
      exists (cli_log w1). rewrite Hlog. destruct p; reflexivity.
  - unfold with_tempdir.
    pose proof (mkdtemp_spec "llm_analyze_build_" w1) as Hm.
    destruct (mkdtemp "llm_analyze_build_" w1) as [[ctx|e] w2] eqn:E.
    + rewrite (bind_ok_eq _ _ _ _ _ E). unfold try_finally.
      destruct Hm as (_ & _ & _ & (I2 & _ & _ & _ & C2 & _)).
      rewrite (bind_ok_eq (write_file _ _) _ w2 tt _ eq_refl). cbv zeta.
      unfold build_cmd_temp.
      match goal with |- context [bind (docker_cli bo ro ?cmd) _ ?w3] =>
        assert (C3 : cli_available w3 = true) by (cbn; congruence);
        destruct (cli_build_fails bo ro img [render ctx] w3 C3 (Hb _ _))
          as (p & Ep & Hp & Himg & Hlog & _) end.
      rewrite (bind_ok_eq _ _ _ _ _ Ep). apply Z.eqb_neq in Hp as Hp'. rewrite Hp'.
      unfold raise. cbn [remove_tree images cli_log with_fs].
      split; [rewrite Himg; cbn; congruence|]. split.
      * split; [discriminate | intros [_ H]; discriminate H].
      * intros e [= <-]. right. right. do 4 eexists. split; [reflexivity|]. split; [exact Hp|].
        eexists. rewrite Hlog. destruct p; reflexivity.
    + unfold bind. rewrite E. destruct Hm as (-> & _ & (I2 & _)). cbn.
      split; [congruence|]. split.
      * split; [discriminate | intros [_ H]; discriminate H].
      * intros e [= <-]. right. left. reflexivity.
Qed.

End SandboxExtraClaims.

Module SandboxExecuteClaims.
Import Sandbox SandboxFacts SandboxRun SandboxStepFacts SandboxEnsureFacts.


(** [DockerRuntime.run] leaves the images of the daemon alone. *)
Lemma run_container_images bo ro img i o w :
  images (snd (run_container bo ro img i o w)) = images w.
Proof.
  unfold run_container. rewrite snd_bind.
  pose proof (cli_run_images bo ro (tl (tl (run_cmd img i o))) w) as H.
  change ("docker" :: "run" :: tl (tl (run_cmd img i o))) with (run_cmd img i o) in H.
  destruct (docker_cli bo ro (run_cmd img i o) w) as [[p|e] w1]; cbn in H |- *; [|exact H].
  destruct (_ && _); exact H.
Qed.

(** A returning [execute] runs its container last, from the image named
    by its [image] argument (or the environment's default when that is
    empty), with the [inputs] and [outputs] directories of the workspace
    [mkdtemp] created for the call as its mounts, and that image is then
    present in the daemon. *)
Theorem execute_runs_image_on_workspace bo ro code variables image w er w' :
  execute bo ro code variables image w = (Ok er, w') ->
  exists root l p,
    fst (mkdtemp "codegen_agent_" w) = Ok root /\
    cli_log w' = l ++ [(run_cmd (runtime_image (Some image) w)
                          (render (root ++ ["inputs"])) (render (root ++ ["outputs"])), p)] /\
    existsb (String.eqb (runtime_image (Some image) w)) (images w') = true.
Proof.
  intros H. unfold execute in H. apply bind_ok in H as (root & w1 & Hm & H).
  cbv beta zeta in H. apply try_finally_inv in H as (w2 & Hb & ->).
  pose proof (mkdtemp_spec "codegen_agent_" w) as Hs. rewrite Hm in Hs.
  destruct Hs as (_ & _ & _ & F1).
  apply bind_ok in Hb as (u1 & wa & H1 & Hb).
  pose proof (Frame_mkdir (root ++ ["inputs"]) w1) as Fa. rewrite H1 in Fa.
  apply bind_ok in Hb as (u2 & wb & H2 & Hb).
  pose proof (Frame_mkdir (root ++ ["outputs"]) wa) as Fb. rewrite H2 in Fb.
  apply bind_ok in Hb as (u3 & wc & H3 & Hb).
  pose proof (Frame_mkdir ((root ++ ["inputs"]) ++ ["vars"]) wb) as Fc. rewrite H3 in Fc.
  apply bind_ok in Hb as (u4 & wd & H4 & Hb).
  assert (Fd : Frame wc wd) by (injection H4 as _ <-; apply Frame_with_fs).
  apply bind_ok in Hb as (u5 & we & H5 & Hb).
  pose proof (Frame_write_prelude_to ((root ++ ["inputs"]) ++ ["prelude.py"]) wd) as Fe.
  rewrite H5 in Fe.
  apply bind_ok in Hb as (u6 & wf & H6 & Hb).
  match type of H6 with for_each ?l ?f we = _ =>
    pose proof (PresR_for_each Frame Frame_refl Frame_trans l f
                  (fun x => Frame_save_var _ _) we) as Ff end.
  rewrite H6 in Ff. cbv beta in Hb.
  assert (F : Frame w wf).
  { apply (Frame_trans _ _ _ F1), (Frame_trans _ _ _ Fa), (Frame_trans _ _ _ Fb),
      (Frame_trans _ _ _ Fc), (Frame_trans _ _ _ Fd), (Frame_trans _ _ _ Fe), Ff. }
  destruct F as (_ & Env & _).
  rewrite (runtime_image_env (Some image) w wf Env) in Hb.
  apply bind_ok in Hb as (u7 & wg & H7 & Hb).
  apply bind_ok in Hb as (q & wh & H8 & Hret).
  injection Hret as _ <-.
  pose proof (ensure_spec bo ro (runtime_image (Some image) w) None wf) as Se.
  rewrite H7 in Se. destruct Se as (_ & Hok & _). destruct u7. specialize (Hok eq_refl).
  pose proof (run_container_images bo ro (runtime_image (Some image) w)
                (render (root ++ ["inputs"])) (render (root ++ ["outputs"])) wg) as Hi.
  rewrite H8 in Hi. cbn [snd] in Hi.
  apply run_container_spec in H8 as (p & Hlog & _).
  exists root, (cli_log wg), p. split; [rewrite Hm; reflexivity|]. split.
  - exact Hlog.
  - cbn [rmtree_ignore_errors with_fs images]. rewrite Hi. exact Hok.
Qed.

(** [execute] never removes an entry that was on the host before the
    call: its cleanup only removes entries under the fresh workspace, and
    the temporary build context of [ensure_image] is fresh as well. *)
Theorem execute_keeps_existing_entries bo ro code variables image w :
  incl (fs w) (fs (snd (execute bo ro code variables image w))).
Proof.
  intros pe Hin. unfold execute.
  pose proof (mkdtemp_spec "codegen_agent_" w) as Hm.
  destruct (mkdtemp "codegen_agent_" w) as [[root|e] w1] eqn:E.
  2: { unfold bind. rewrite E. destruct Hm as (_ & Hf & _). cbn [snd]. rewrite Hf. exact Hin. }
  rewrite (snd_bind_ok _ _ _ _ _ E). cbv beta zeta. rewrite snd_try_finally.
  destruct Hm as (_ & Hf & Hfresh & _).
  lazymatch goal with
  | |- In _ (fs (rmtree_ignore_errors _ (snd (?B w1)))) =>
      assert (HB : PresR Keeps B);
      [ | assert (Hin1 : In pe (fs (snd (B w1)))) by (apply HB; rewrite Hf; right; exact Hin) ]
  end.
  { repeat match goal with
    | |- forall _ : unit, _ => intros _
    | |- PresR Keeps (bind _ _) => apply (PresR_bind Keeps Keeps_trans)
    | |- PresR Keeps (mkdir _) => apply Keeps_mkdir
    | |- PresR Keeps (write_file _ _) => apply Keeps_write_file
    | |- PresR Keeps (write_prelude_to _) => apply Keeps_write_prelude_to
    | |- PresR Keeps (for_each _ _) =>
        apply (PresR_for_each Keeps Keeps_refl Keeps_trans); intros nv; cbv beta
    | |- PresR Keeps (save_var _ _) => apply Keeps_save_var
    | |- PresR Keeps (ensure_image _ _ _ _) =>
        let w0 := fresh "w" in
        intros w0; unfold Keeps; rewrite (ensure_image_fs _ _ _ _ w0); apply incl_refl
    | |- PresR Keeps (run_container _ _ _ _ _) => apply Keeps_run_container
    | |- PresR Keeps (ret _) => apply PresR_ret, Keeps_refl
    | |- forall _ : CompletedProcess, _ => intros
    | |- PresR Keeps (fun _ => _) =>
        let w0 := fresh "w" in
        intros w0; cbv beta;
        match goal with
        | |- Keeps _ (snd (?M w0)) =>
            assert (HM : PresR Keeps M); [| exact (HM w0)]
        end
    end. }
  cbn [rmtree_ignore_errors with_fs fs]. apply filter_In. split; [exact Hin1|].
  rewrite forallb_forall in Hfresh. rewrite (Hfresh pe Hin). reflexivity.
Qed.

End SandboxExecuteClaims.

Module SandboxExtraWitnesses.
Import Sandbox SandboxScenarios ExtraScenarios SandboxExtraClaims SandboxExecuteClaims.

Lemma ensure_image_failed_build_witness :
  (forall w0 c, fst (fst (build_fails w0 c)) <> 0%Z) /\
  let '(r, w') := ensure_image build_fails run_fails_stdout "llm-analyze-runner:py313" None host0 in
  images w' = images host0 /\
  (r = Ok tt <-> cli_available host0 = true /\
                existsb (String.eqb "llm-analyze-runner:py313") (images host0) = true) /\
  (forall e, r = Raise e ->
     e = OSError "docker" \/ e = OSError "FileExistsError" \/
     exists cmd rc out err, e = BuildFailure cmd rc out err /\ rc <> 0%Z /\
       exists l, cli_log w' = l ++ [(cmd, {| prc := rc; pstdout := out; pstderr := err |})]).
Proof.
  assert (Hb : forall w0 c, fst (fst (build_fails w0 c)) <> 0%Z) by (intros; discriminate).
  split; [exact Hb|].
  exact (ensure_image_failed_build build_fails run_fails_stdout "llm-analyze-runner:py313" None
           host0 Hb).
Defined.


Lemma execute_runs_image_on_workspace_witness :
  execute build_ok run_fails_stdout "print(undefined_name)" [] "codegen-agent-runner:py313" host0
    = (Ok er_fail, snd (execute build_ok run_fails_stdout "print(undefined_name)" []
                         "codegen-agent-runner:py313" host0)) /\
  exists root l p,
    fst (mkdtemp "codegen_agent_" host0) = Ok root /\
    cli_log (snd (execute build_ok run_fails_stdout "print(undefined_name)" []
                   "codegen-agent-runner:py313" host0)) =
      l ++ [(run_cmd (runtime_image (Some "codegen-agent-runner:py313") host0)
               (render (root ++ ["inputs"])) (render (root ++ ["outputs"])), p)] /\
    existsb (String.eqb (runtime_image (Some "codegen-agent-runner:py313") host0))
      (images (snd (execute build_ok run_fails_stdout "print(undefined_name)" []
                     "codegen-agent-runner:py313" host0))) = true.
Proof.
  match goal with |- ?A /\ _ => assert (E0 : A) by (vm_compute; reflexivity) end.
  split; [exact E0|].
  exact (execute_runs_image_on_workspace build_ok run_fails_stdout "print(undefined_name)" []
           "codegen-agent-runner:py313" host0 er_fail _ E0).
Defined.

End SandboxExtraWitnesses.
